(** * A shallow embedding of the mock HTTP server of [src/server.js]

    The development follows the source file top to bottom: JavaScript
    values and the few built-ins the server relies on, the request object,
    handler descriptors and the registration method [will], the body and
    status resolvers, the dispatcher [_handleMockedRequest], the default
    responder, and the [start]/[stop] life cycle of a [Server] instance.

    Modelling conventions.
    - JavaScript strings are held as their UTF-8 encoding, so that
      [Buffer.byteLength(s, "utf8")] is the length of the Rocq string.
    - Objects used as dictionaries (header sets, decoded form fields) are
      finite maps; [_.extend] is the right-biased merge of such maps.
    - User supplied functions (filters, body and status functions) are
      total and do not mutate the request or the server; they are known by
      their declared arity, by the value they return and, for functions
      taking a continuation, by the value they hand to it (if ever).
    - Callbacks are written in continuation-passing style as in the source;
      the side effects a reader can observe (a user function being invoked,
      a value reaching a continuation, calls on the response object, timers)
      are collected in a trace of [event]s, in program order.
    - [url.parse] and the multipart decoder are libraries outside the
      source file; they are parameters of the development. Of underscore,
      [_.extend] copies every key of its sources, and [_.each] visits every
      entry of a dictionary but the indices of an object that has a
      numeric [length].
    - Descriptors are typed as the server reads them: [when] and [on] are
      strings, [filter] is a function, [reply], [reply.headers] and
      [reply.headersOverrides] are objects, each present or absent, while
      [reply.status] and [reply.body] hold any value or a function.
    - One request is handled at a time: a body function that calls its
      continuation later is modelled as calling it at once.
    - [ServerMock] forwards [will], [start] and [stop] to an HTTP and an
      HTTPS instance; the functions it hands to the HTTP instance as
      callbacks are known to that instance by a number. *)

From stdpp Require Import base option list gmap strings pretty.
From Stdlib Require Import ZArith Ascii String.

Local Open Scope string_scope.
Local Open Scope Z_scope.
Local Open Scope list_scope.

(** ** JavaScript values *)

Inductive value :=
  | VUndefined
  | VNull
  | VBool (b : bool)
  | VNum (n : Z)
  | VNaN
  | VStr (s : string)
  | VBuffer (bytes : list Byte.byte)
  | VObject (ref : nat).

(** [ToBoolean]: the falsy values are [undefined], [null], [false], [0],
    [NaN] and the empty string. *)
Definition truthy (v : value) : bool :=
  match v with
  | VUndefined | VNull | VNaN => false
  | VBool b => b
  | VNum n => negb (Z.eqb n 0)
  | VStr s => negb (String.eqb s "")
  | VBuffer _ | VObject _ => true
  end.

(** [a || b] *)
Definition js_or (a b : value) : value := if truthy a then a else b.

(** [v !== null] *)
Definition not_null (v : value) : bool :=
  match v with VNull => false | _ => true end.

(** [v === true] *)
Definition is_true (v : value) : bool :=
  match v with VBool true => true | _ => false end.

(** [Buffer.isBuffer] *)
Definition isBuffer (v : value) : bool :=
  match v with VBuffer _ => true | _ => false end.

(** [Buffer.isBuffer(content) ? content.length : Buffer.byteLength(content, "utf8")].
    On anything that is neither a string nor binary data
    [Buffer.byteLength] raises a [TypeError] (old runtimes measured the
    value's string form instead): [None]. The properties below are about
    contents that have a length. *)
Definition content_length (content : value) : option Z :=
  match content with
  | VBuffer bytes => Some (Z.of_nat (List.length bytes))
  | VStr s => Some (Z.of_nat (String.length s))
  | _ => None
  end.

(** [String.prototype.toUpperCase] on method names (ASCII letters). *)
Definition upper_ascii (c : ascii) : ascii :=
  let n := nat_of_ascii c in
  if ((97 <=? n) && (n <=? 122))%nat then ascii_of_nat (n - 32) else c.

Fixpoint toUpperCase (s : string) : string :=
  match s with
  | EmptyString => EmptyString
  | String c rest => String (upper_ascii c) (toUpperCase rest)
  end.

(** [s.split(";")[0]] *)
Fixpoint before_semicolon (s : string) : string :=
  match s with
  | EmptyString => EmptyString
  | String c rest =>
      if Ascii.eqb c ";" then EmptyString else String c (before_semicolon rest)
  end.

(** [_.extend(obj, src)] on dictionaries: every key of [src] is written
    into [obj]; stdpp's union is left-biased, hence the swap. *)
Definition extend {A} (obj src : gmap string A) : gmap string A := src ∪ obj.

(** ** Requests *)

(** A decoded form field: a scalar, or the array the decoder produced. *)
Inductive field :=
  | Single (v : string)
  | Multi (vs : list string).

Record url_parts := {
  up_pathname : option string;          (* [None] is JavaScript's [null] *)
  up_query : gmap string field
}.

Record request := {
  req_method : string;
  req_url : string;
  req_headers : gmap string string;
  req_body : option (gmap string field);
  req_files : option (gmap string field);
  req_pathname : option string;
  req_query : option (gmap string field)
}.

(** ** Handlers *)

(** A user function: [fn_length] is [f.length], [fn_return r] the value of
    [f(r)] (or of [f(r, k)]), and [fn_send r] the value [f(r, k)] passes to
    its continuation [k], [None] when it never calls it. *)
Record jsfun := {
  fn_length : nat;
  fn_return : request -> value;
  fn_send : request -> option value
}.

(** A [reply.status] or [reply.body] entry: [_.isFunction] tells the two
    cases apart. *)
Inductive slot :=
  | Lit (v : value)
  | Fn (f : jsfun).

(** The object passed to [will]; [None] is an absent key. *)
Record reply_descriptor := {
  d_status : option slot;
  d_body : option slot;
  d_headers : option (gmap string value);
  d_headersOverrides : option (gmap string value)
}.

Record descriptor := {
  d_when : option string;
  d_on : option string;
  d_filter : option jsfun;
  d_reply : option reply_descriptor;
  d_delay : option Z
}.

(** The object [will] pushes on [handlers]: [when], [reply.status],
    [reply.body] and [reply.headers] are always present. Fields carry the
    prefix of their record ([h_filter] is [handler.filter]). *)
Record reply := {
  r_status : slot;
  r_body : slot;
  r_headers : gmap string value;
  r_headersOverrides : option (gmap string value)
}.

Record handler := {
  h_when : string;
  h_on : option string;                 (* [None] is [undefined] *)
  h_filter : option jsfun;
  h_reply : reply;
  h_delay : option Z
}.

Definition set_headers (hs : gmap string value) (h : handler) : handler :=
  {| h_when := h_when h; h_on := h_on h; h_filter := h_filter h;
     h_reply :=
       {| r_status := r_status (h_reply h); r_body := r_body (h_reply h);
          r_headers := hs;
          r_headersOverrides := r_headersOverrides (h_reply h) |};
     h_delay := h_delay h |}.

(** ** Observable effects *)

Inductive res_op :=
  | WriteHead (st : value) (hs : gmap string value)
  | Write (content : value) (encoding : option string)
  | End (data : option value).

Inductive event :=
  | EvFilter (i : nat)                     (* [handlers[i].filter(req)] *)
  | EvBodyCall (i : nat)                   (* [handlers[i].reply.body(...)] *)
  | EvBody (i : nat) (content : value)     (* body continuation entered *)
  | EvStatusCall (i : nat)                 (* [handlers[i].reply.status(req)] *)
  | EvStatus (i : nat) (st : value)        (* status continuation entered *)
  | EvTypeError                            (* [Buffer.byteLength] threw *)
  | EvTimeout (ms : Z) (ops : list res_op) (* [setTimeout(function () { ops }, ms)] *)
  | EvRes (op : res_op).                   (* immediate call on [res] *)

(** ** Server instances *)

Inductive effect :=
  | Callback (cb : nat)                    (* [callback()] *)
  | Listen (secure : bool) (port : Z) (host : string)
  | CloseListener                          (* [server.close()] *)
  | EndConnection (c : nat).               (* [connection.end()] *)

(** The [http.Server] held in the variable [server], with the callbacks
    registered on its ["listening"] and ["close"] events. *)
Record listener := {
  lst_secure : bool;
  lst_on_listening : list nat;
  lst_on_close : list nat
}.

Record server := {
  srv_host : string;
  srv_port : Z;
  srv_key : option string;
  srv_cert : option string;
  srv_server : option listener;
  srv_handlers : list handler;
  srv_connections : list nat;
  (* ["close"] hooks that [stop] put on connections: (connection, callback) *)
  srv_draining : list (nat * nat)
}.

Definition Server (host : string) (port : Z) (key cert : option string) : server :=
  {| srv_host := host; srv_port := port; srv_key := key; srv_cert := cert;
     srv_server := None; srv_handlers := []; srv_connections := [];
     srv_draining := [] |}.

Definition set_handlers (hs : list handler) (s : server) : server :=
  {| srv_host := srv_host s; srv_port := srv_port s; srv_key := srv_key s;
     srv_cert := srv_cert s; srv_server := srv_server s; srv_handlers := hs;
     srv_connections := srv_connections s; srv_draining := srv_draining s |}.

Definition set_server (l : option listener) (s : server) : server :=
  {| srv_host := srv_host s; srv_port := srv_port s; srv_key := srv_key s;
     srv_cert := srv_cert s; srv_server := l; srv_handlers := srv_handlers s;
     srv_connections := srv_connections s; srv_draining := srv_draining s |}.

Definition set_connections (cs : list nat) (s : server) : server :=
  {| srv_host := srv_host s; srv_port := srv_port s; srv_key := srv_key s;
     srv_cert := srv_cert s; srv_server := srv_server s;
     srv_handlers := srv_handlers s; srv_connections := cs;
     srv_draining := srv_draining s |}.

Definition set_draining (ds : list (nat * nat)) (s : server) : server :=
  {| srv_host := srv_host s; srv_port := srv_port s; srv_key := srv_key s;
     srv_cert := srv_cert s; srv_server := srv_server s;
     srv_handlers := srv_handlers s; srv_connections := srv_connections s;
     srv_draining := ds |}.

(** What a method returns: [this], or nothing. *)
Inductive ret := This | Undefined.

(** ** Registration: [this.will] *)

(** A descriptor without a [reply] reads like one whose [reply] has no key. *)
Definition empty_reply : reply_descriptor :=
  {| d_status := None; d_body := None; d_headers := None;
     d_headersOverrides := None |}.

Definition default_reply_descriptor : reply_descriptor :=
  {| d_status := Some (Lit (VNum 200)); d_body := Some (Lit (VStr ""));
     d_headers := None; d_headersOverrides := None |}.

(** [_({}).extend(a, b)] on reply objects: a key of [b] wins when present. *)
Definition extend_reply (a : reply_descriptor) (b : option reply_descriptor)
  : reply_descriptor :=
  match b with
  | None => a
  | Some b =>
      {| d_status := d_status b ∪ d_status a;
         d_body := d_body b ∪ d_body a;
         d_headers := d_headers b ∪ d_headers a;
         d_headersOverrides := d_headersOverrides b ∪ d_headersOverrides a |}
  end.

Definition default_headers : gmap string value :=
  {[ "content-type" := VStr "application/json" ]}.

Definition registered (d : descriptor) : handler :=
  (* handler.reply = _({}).extend({ "status": 200, "body": "" }, handler.reply) *)
  let r := extend_reply default_reply_descriptor (d_reply d) in
  (* handler.reply.headers = _({}).extend({ "content-type": ... }, handler.reply.headers) *)
  let hs := extend default_headers (default ∅ (d_headers r)) in
  (* handler = _({}).extend({ "when": "GET" }, handler) *)
  {| h_when := default "GET" (d_when d);
     h_on := d_on d;
     h_filter := d_filter d;
     h_reply :=
       {| r_status := default (Lit VUndefined) (d_status r);
          r_body := default (Lit VUndefined) (d_body r);
          r_headers := hs;
          r_headersOverrides := d_headersOverrides r |};
     h_delay := d_delay d |}.

Definition will (d : descriptor) (s : server) : server * ret :=
  (set_handlers (srv_handlers s ++ [registered d]) s, This).

(** The stand-in for a protocol that was not configured: it records
    nothing and completes at once. *)
Module ServerVoid.

Definition will (d : descriptor) : ret := Undefined.
Definition start (callback : nat) : list effect := [Callback callback].
Definition stop (callback : nat) : list effect := [Callback callback].

End ServerVoid.

(** ** Request handling *)

Section Dispatch.

(** [url.parse(u, true)] *)
Variable url_parse : string -> url_parts.

(** [multiparty.Form.parse]: [None] when it reports an error, otherwise
    the decoded fields and files, each name with the array of its values. *)
Variable form_parse :
  request -> option (gmap string (list string) * gmap string (list string)).

Definition set_form (b f : gmap string field) (req : request) : request :=
  {| req_method := req_method req; req_url := req_url req;
     req_headers := req_headers req; req_body := Some b; req_files := Some f;
     req_pathname := req_pathname req; req_query := req_query req |}.

(** [Array.isArray(value) && value.length === 1 ? value[0] : value] *)
Definition collapse (value : list string) : field :=
  match value with
  | [v] => Single v
  | _ => Multi value
  end.

Definition _multipart {R} (req : request) (next : request -> R) : R :=
  if negb (String.eqb (req_method req) "POST")
     && negb (String.eqb (req_method req) "PUT")
  then next req
  else if negb (String.eqb "multipart/form-data"
                 (before_semicolon (default "" (req_headers req !! "content-type"))))
  then next req
  else match form_parse req with
       | None => next (set_form ∅ ∅ req)
       | Some (fields, files) =>
           next (set_form (collapse <$> fields) (collapse <$> files) req)
       end.

(** The result of running a continuation on behalf of handler [i]: the
    handler object as the continuation leaves it, and what it did. *)
Definition outcome : Type := handler * list event.

Definition log (e : event) (o : outcome) : outcome := (o.1, e :: o.2).

Definition _getResponseBody (i : nat) (h : handler) (req : request)
    (callback : value -> outcome) : outcome :=
  match r_body (h_reply h) with
  | Lit v =>
      (* String *)
      callback (js_or v (VStr ""))
  | Fn f =>
      if (fn_length f <=? 1)%nat
      then (* Synch function *)
        log (EvBodyCall i) (callback (js_or (fn_return f req) (VStr "")))
      else (* Asynch function *)
        log (EvBodyCall i)
            match fn_send f req with
            | Some v => callback v
            | None => (h, [])
            end
  end.

Definition _getResponseStatus (i : nat) (h : handler) (req : request)
    (callback : value -> outcome) : outcome :=
  match r_status (h_reply h) with
  | Lit v =>
      (* Number *)
      callback (js_or v (VNum 0))
  | Fn f =>
      (* Synch function *)
      log (EvStatusCall i) (callback (js_or (fn_return f req) (VNum 0)))
  end.

(** [_(handler.reply.headers).extend({ "content-length": length },
    handler.reply.headersOverrides || {})]: the receiver is the handler's
    own header object, which is updated in place and returned. *)
Definition merged_headers (h : handler) (length : Z) : gmap string value :=
  extend (extend (r_headers (h_reply h)) {[ "content-length" := VNum length ]})
         (default ∅ (r_headersOverrides (h_reply h))).

(** What [_.each] takes for an array: an object whose [length] is a number
    between 0 and [MAX_ARRAY_INDEX]; the result is that length. *)
Definition isArrayLike (obj : gmap string value) : option Z :=
  match obj !! "length" with
  | Some (VNum n) =>
      if (0 <=? n) && (n <=? 9007199254740991) then Some n else None
  | _ => None
  end.

(** Remove "null" values from headers: [_(headers).each(function (value,
    name) { if (value !== null) headersToSend[name] = value; })], starting
    from [{}]. On a dictionary [each] visits every entry; on what it takes
    for an array it visits the indices [0 .. length - 1] instead, each with
    the value found under it, [undefined] when there is none. *)
Definition headersToSend (hs : gmap string value) : gmap string value :=
  match isArrayLike hs with
  | Some n =>
      foldl (λ sent (i : nat),
               let value := default VUndefined (hs !! pretty i) in
               if not_null value then <[pretty i := value]> sent else sent)
            ∅ (seq 0 (Z.to_nat n))
  | None => filter (λ kv, not_null kv.2) hs
  end.

(** The body of the innermost callback of [_handleMockedRequest]. *)
Definition send (h : handler) (req : request) (content st : value) : outcome :=
  match content_length content with
  | None => (h, [EvTypeError])
  | Some length =>
      let encoding := if isBuffer content then None else Some "utf8" in
      let hs := merged_headers h length in
      (set_headers hs h,
       [EvTimeout (default 0 (h_delay h))
          ([WriteHead st (headersToSend hs)]
           ++ (if negb (String.eqb (req_method req) "HEAD")
               then [Write content encoding] else [])
           ++ [End None])])
  end.

(** Get response status and body *)
Definition respond (i : nat) (h : handler) (req : request) : outcome :=
  _getResponseBody i h req (λ content,
    log (EvBody i content)
      (_getResponseStatus i h req (λ st,
         log (EvStatus i st) (send h req content st)))).

(** Parse request URL *)
Definition set_url (req : request) : request :=
  let reqParts := url_parse (req_url req) in
  {| req_method := req_method req; req_url := req_url req;
     req_headers := req_headers req; req_body := req_body req;
     req_files := req_files req;
     req_pathname := up_pathname reqParts;
     req_query := Some (up_query reqParts) |}.

(** [handler.when != "*" && req.method != handler.when.toUpperCase()] *)
Definition method_differs (h : handler) (req : request) : bool :=
  negb (String.eqb (h_when h) "*")
  && negb (String.eqb (req_method req) (toUpperCase (h_when h))).

(** [reqParts.pathname != handler.on]; [null == undefined] holds. *)
Definition path_differs (h : handler) (req : request) : bool :=
  match up_pathname (url_parse (req_url req)), h_on h with
  | Some p, Some o => negb (String.eqb p o)
  | None, None => false
  | _, _ => true
  end.

(** The guard of the loop body, left to right with JavaScript's short
    circuit: whether the handler is passed over, and the filter call it
    took to find out. [req] already carries [pathname] and [query]. *)
Definition skips (i : nat) (h : handler) (handled : bool) (req : request)
  : bool * list event :=
  if handled || method_differs h req || path_differs h req
  then (true, [])
  else match h_filter h with
       | None => (false, [])
       | Some f => (negb (is_true (fn_return f req)), [EvFilter i])
       end.

Record scan := {
  sc_handlers : list handler;
  sc_handled : bool;
  sc_req : request;
  sc_trace : list event
}.

(** [_(handlers).each(function (handler) { ... })], from index [i] on. *)
Fixpoint each_handler (i : nat) (hs : list handler) (handled : bool)
    (req : request) : scan :=
  match hs with
  | [] =>
      {| sc_handlers := []; sc_handled := handled; sc_req := req; sc_trace := [] |}
  | h :: rest =>
      let req := set_url req in
      let '(skip, t1) := skips i h handled req in
      if skip
      then
        let s := each_handler (S i) rest handled req in
        {| sc_handlers := h :: sc_handlers s; sc_handled := sc_handled s;
           sc_req := sc_req s; sc_trace := t1 ++ sc_trace s |}
      else
        (* Flag as handled *)
        let '(h', t2) := respond i h req in
        let s := each_handler (S i) rest true req in
        {| sc_handlers := h' :: sc_handlers s; sc_handled := sc_handled s;
           sc_req := sc_req s; sc_trace := t1 ++ t2 ++ sc_trace s |}
  end.

Definition _handleMockedRequest (hs : list handler) (req : request)
    (next : request -> list event) : list handler * list event :=
  let s := each_handler 0 hs false req in
  (sc_handlers s,
   sc_trace s ++ (if negb (sc_handled s) then next (sc_req s) else [])).

Definition _handleDefaultRequest (req : request) : list event :=
  [ EvRes (WriteHead (VNum 404)
             {[ "content-type" := VStr "plain/text";
                "content-length" := VNum 9 ]});
    EvRes (End (Some (VStr "Not Found"))) ].

(** The connect stack built by [start]:
    [_multipart], [_handleMockedRequest], [_handleDefaultRequest]. *)
Definition connectApp (s : server) (req : request) : server * list event :=
  _multipart req (λ req,
    let '(hs, t) := _handleMockedRequest (srv_handlers s) req _handleDefaultRequest in
    (set_handlers hs s, t)).

(** Requests served one after the other. *)
Fixpoint serve (s : server) (reqs : list request) : server * list (list event) :=
  match reqs with
  | [] => (s, [])
  | req :: rest =>
      let '(s1, t) := connectApp s req in
      let '(s2, ts) := serve s1 rest in
      (s2, t :: ts)
  end.

(** A handler matches a request: the guard of the loop lets it through
    when nothing was handled before. *)
Definition matches (h : handler) (req : request) : bool :=
  negb (method_differs h (set_url req))
  && negb (path_differs h (set_url req))
  && match h_filter h with
     | None => true
     | Some f => is_true (fn_return f (set_url req))
     end.

End Dispatch.

(** ** Life cycle *)

(** [key && cert] as a condition: both given and non-empty. *)
Definition given (o : option string) : bool :=
  match o with
  | Some s => negb (String.eqb s "")
  | None => false
  end.

Definition start (callback : nat) (s : server) : server * list effect :=
  let secure := given (srv_key s) && given (srv_cert s) in
  (set_server (Some {| lst_secure := secure; lst_on_listening := [callback];
                       lst_on_close := [] |}) s,
   [Listen secure (srv_port s) (srv_host s)]).

Definition stop (callback : nat) (s : server) : server * list effect :=
  match srv_server s with
  | None => (s, [Callback callback])
  | Some l =>
      (set_server (Some {| lst_secure := lst_secure l;
                           lst_on_listening := lst_on_listening l;
                           lst_on_close := lst_on_close l ++ [callback] |}) s,
       [CloseListener])
  end.

(** [_(connections).without(connection)] *)
Definition without (c : nat) (cs : list nat) : list nat :=
  List.filter (λ x, negb (Nat.eqb x c)) cs.

(** What the transport reports back to the instance. *)
Inductive signal :=
  | Listening
  | Connection (c : nat)
  | ConnectionClosed (c : nat)
  | Closed.

(** The ["close"] hook [stop] registered with [callback]. *)
Definition on_closed (callback : nat) (s : server) : server * list effect :=
  let s := set_handlers [] (set_server None s) in
  if (List.length (srv_connections s) =? 0)%nat
  then (s, [Callback callback])
  else (set_draining (srv_draining s ++ map (λ c, (c, callback)) (srv_connections s)) s,
        map EndConnection (srv_connections s)).

(** The ["close"] hook [stop] put on a connection. *)
Definition on_drained (c callback : nat) (s : server) : server * list effect :=
  let s := set_connections (without c (srv_connections s)) s in
  (s, if (List.length (srv_connections s) =? 0)%nat then [Callback callback] else []).

Fixpoint run_hooks {A} (hook : A -> server -> server * list effect)
    (hs : list A) (s : server) : server * list effect :=
  match hs with
  | [] => (s, [])
  | a :: rest =>
      let '(s1, e1) := hook a s in
      let '(s2, e2) := run_hooks hook rest s1 in
      (s2, e1 ++ e2)
  end.

Definition react (sg : signal) (s : server) : server * list effect :=
  match sg with
  | Listening =>
      (s, map Callback (from_option lst_on_listening [] (srv_server s)))
  | Connection c =>
      (set_connections (srv_connections s ++ [c]) s, [])
  | ConnectionClosed c =>
      let s := set_connections (without c (srv_connections s)) s in
      let mine := List.filter (λ p, Nat.eqb p.1 c) (srv_draining s) in
      let others := List.filter (λ p, negb (Nat.eqb p.1 c)) (srv_draining s) in
      run_hooks (λ p, on_drained p.1 p.2) mine (set_draining others s)
  | Closed =>
      run_hooks on_closed (from_option lst_on_close [] (srv_server s)) s
  end.

(** Signals reported one after the other. *)
Fixpoint reacts (sgs : list signal) (s : server) : server * list effect :=
  match sgs with
  | [] => (s, [])
  | sg :: rest =>
      let '(s1, e1) := react sg s in
      let '(s2, e2) := reacts rest s1 in
      (s2, e1 ++ e2)
  end.

(** The connections still open of [cs] once those of [closed] are closed. *)
Definition remaining (cs closed : list nat) : list nat :=
  foldl (λ r c, without c r) cs closed.

(** The instance is draining for [cb]: every tracked connection carries
    the ["close"] hook that [stop] put on it, and no other hook is left. *)
Definition draining_for (cb : nat) (s : server) : Prop :=
  srv_draining s = map (λ x, (x, cb)) (srv_connections s)
  ∧ NoDup (srv_connections s).

(** ** What a client sees *)

(** The calls made on the response object, immediate or from a timer. *)
Definition written (t : list event) : list res_op :=
  flat_map (λ e, match e with
                 | EvRes op => [op]
                 | EvTimeout _ ops => ops
                 | _ => []
                 end) t.

Record response := {
  status : value;
  headers : gmap string value;
  body : list value                    (* the chunks given to [write] and [end] *)
}.

Definition chunks (ops : list res_op) : list value :=
  flat_map (λ op, match op with
                  | Write content _ => [content]
                  | End (Some data) => [data]
                  | _ => []
                  end) ops.

Definition response_of (ops : list res_op) : option response :=
  match ops with
  | WriteHead st hs :: rest =>
      Some {| status := st; headers := hs; body := chunks rest |}
  | _ => None
  end.

(** The handler index an event is about. *)
Definition about (e : event) : option nat :=
  match e with
  | EvFilter i | EvBodyCall i | EvBody i _ | EvStatusCall i | EvStatus i _ => Some i
  | _ => None
  end.

Definition is_status_event (e : event) : bool :=
  match e with
  | EvStatusCall _ | EvStatus _ _ => true
  | _ => false
  end.

Definition is_body_call (e : event) : bool :=
  match e with
  | EvBodyCall _ => true
  | _ => false
  end.

(** A handler as a later request finds it: as registered, or with the
    header object an earlier response left behind. *)
Definition settled (h h' : handler) : Prop :=
  h' = h ∨ ∃ n, h' = set_headers (merged_headers h n) h.

(** Two instances that differ at most by header objects that responses
    left behind. *)
Definition same_but_headers (s0 s : server) : Prop :=
  Forall2 settled (srv_handlers s0) (srv_handlers s)
  ∧ set_handlers (srv_handlers s0) s = s0.

(** A filter call of a handler registered before index [bound]. *)
Definition is_filter_call (bound : nat) (e : event) : Prop :=
  ∃ k, e = EvFilter k ∧ (k < bound)%nat.

(** A header object that [_.each] cannot take for an array, whatever the
    bounds it puts on [length]. *)
Definition no_numeric_length (hs : gmap string value) : Prop :=
  ∀ n, hs !! "length" ≠ Some (VNum n).

(** The byte length handler [i] computed for the last response it sent
    in the trace [t]: it sends one whenever its body continuation is
    entered with a content that has a length. *)
Definition answered (i : nat) (t : list event) : option Z :=
  last (omap (λ e, match e with
                   | EvBody j content =>
                       if decide (j = i) then content_length content else None
                   | _ => None
                   end) t).

(** A handler after it has sent a response for a body of length [n], or
    none. *)
Definition after_answer (h : handler) (a : option Z) : handler :=
  match a with
  | Some n => set_headers (merged_headers h n) h
  | None => h
  end.

(** ** Sample data *)

Module Sample.

(** The path is what precedes the query string. *)
Fixpoint before_query (s : string) : string :=
  match s with
  | EmptyString => EmptyString
  | String c rest =>
      if Ascii.eqb c "?" then EmptyString else String c (before_query rest)
  end.

Definition url_parse (u : string) : url_parts :=
  {| up_pathname := Some (before_query u); up_query := ∅ |}.

Definition form_parse (req : request)
  : option (gmap string (list string) * gmap string (list string)) :=
  Some ({[ "name" := ["Ada"] ]}, ∅).

Definition get (u : string) : request :=
  {| req_method := "GET"; req_url := u; req_headers := ∅;
     req_body := None; req_files := None;
     req_pathname := None; req_query := None |}.

Definition head (u : string) : request :=
  {| req_method := "HEAD"; req_url := u; req_headers := ∅;
     req_body := None; req_files := None;
     req_pathname := None; req_query := None |}.

(** [{ on: "/ping", reply: { body: "pong" } }] *)
Definition ping : descriptor :=
  {| d_when := None; d_on := Some "/ping"; d_filter := None;
     d_reply := Some {| d_status := None; d_body := Some (Lit (VStr "pong"));
                        d_headers := None; d_headersOverrides := None |};
     d_delay := None |}.

(** [{ on: "/ping", when: "*", reply: { status: 201, body: "other" } }] *)
Definition ping_any : descriptor :=
  {| d_when := Some "*"; d_on := Some "/ping"; d_filter := None;
     d_reply := Some {| d_status := Some (Lit (VNum 201));
                        d_body := Some (Lit (VStr "other"));
                        d_headers := None; d_headersOverrides := None |};
     d_delay := None |}.

(** [{ on: "/gone", reply: { headers: { "content-type": null, "x-a": undefined },
                             headersOverrides: { "content-length": 0 } } }] *)
Definition gone : descriptor :=
  {| d_when := None; d_on := Some "/gone"; d_filter := None;
     d_reply := Some {| d_status := None; d_body := None;
                        d_headers := Some {[ "content-type" := VNull;
                                             "x-a" := VUndefined ]};
                        d_headersOverrides := Some {[ "content-length" := VNum 0 ]} |};
     d_delay := None |}.

(** [{ on: "/len", reply: { body: "abc", headers: { length: 1 } } }] *)
Definition lengthy : descriptor :=
  {| d_when := None; d_on := Some "/len"; d_filter := None;
     d_reply := Some {| d_status := None; d_body := Some (Lit (VStr "abc"));
                        d_headers := Some {[ "length" := VNum 1 ]};
                        d_headersOverrides := None |};
     d_delay := None |}.

(** [function (req) { return 1; }] *)
Definition returns (v : value) : jsfun :=
  {| fn_length := 1; fn_return := λ _, v; fn_send := λ _, None |}.

(** [{ on: "/ping", filter: function (req) { return 1; }, reply: { body: "never" } }] *)
Definition ping_filtered : descriptor :=
  {| d_when := None; d_on := Some "/ping"; d_filter := Some (returns (VNum 1));
     d_reply := Some {| d_status := None; d_body := Some (Lit (VStr "never"));
                        d_headers := None; d_headersOverrides := None |};
     d_delay := None |}.

(** A decoder that finds one [name] and two [tags]. *)
Definition form_parse_tags (req : request)
  : option (gmap string (list string) * gmap string (list string)) :=
  Some ({[ "name" := ["Ada"]; "tags" := ["a"; "b"] ]}, ∅).

(** A POST carrying a multipart form. *)
Definition post_form (u : string) : request :=
  {| req_method := "POST"; req_url := u;
     req_headers := {[ "content-type" := "multipart/form-data; boundary=x" ]};
     req_body := None; req_files := None;
     req_pathname := None; req_query := None |}.

Definition fresh : server := Server "localhost" 8080 None None.

Definition with_handlers (ds : list descriptor) : server :=
  foldl (λ s d, (will d s).1) fresh ds.

(** [{ on: "/slow", reply: { body: "done" }, delay: 50 }] *)
Definition slow : descriptor :=
  {| d_when := None; d_on := Some "/slow"; d_filter := None;
     d_reply := Some {| d_status := None; d_body := Some (Lit (VStr "done"));
                        d_headers := None; d_headersOverrides := None |};
     d_delay := Some 50 |}.

(** [{ on: "/ping", when: "get", reply: { body: "pong" } }] *)
Definition ping_lower : descriptor :=
  {| d_when := Some "get"; d_on := Some "/ping"; d_filter := None;
     d_reply := Some {| d_status := None; d_body := Some (Lit (VStr "pong"));
                        d_headers := None; d_headersOverrides := None |};
     d_delay := None |}.

(** [{ on: "/hang", reply: { body: function (req, send) { } } }] *)
Definition hang : descriptor :=
  {| d_when := None; d_on := Some "/hang"; d_filter := None;
     d_reply := Some {| d_status := None;
                        d_body := Some (Fn {| fn_length := 2;
                                              fn_return := λ _, VUndefined;
                                              fn_send := λ _, None |});
                        d_headers := None; d_headersOverrides := None |};
     d_delay := None |}.

(** An instance that listens and tracks the connections [cs]. *)
Definition listening (cs : list nat) : server :=
  (reacts (Listening :: (Connection <$> cs)) (start 1 (with_handlers [ping])).1).1.

End Sample.

(** ** The two-protocol facade *)

(** The descriptor object as [Server]'s [will] leaves it to its caller:
    the method assigns the completed [reply], and the completed
    [reply.headers], into the object it was given (the default [when] goes
    into a copy only). *)
Definition rewritten (d : descriptor) : descriptor :=
  let r := extend_reply default_reply_descriptor (d_reply d) in
  {| d_when := d_when d; d_on := d_on d; d_filter := d_filter d;
     d_reply :=
       Some {| d_status := d_status r; d_body := d_body r;
               d_headers := Some (extend default_headers (default ∅ (d_headers r)));
               d_headersOverrides := d_headersOverrides r |};
     d_delay := d_delay d |}.

Module ServerMock.

Record config := {
  cfg_host : string;
  cfg_port : Z;
  cfg_key : option string;
  cfg_cert : option string
}.

(** The two instances; [None] is a [ServerVoid]. *)
Record mock := {
  httpServerMock : option server;
  httpsServerMock : option server
}.

Definition ServerMock (httpConfig httpsConfig : option config) : mock :=
  {| httpServerMock := (λ c, Server (cfg_host c) (cfg_port c) None None) <$> httpConfig;
     httpsServerMock :=
       (λ c, Server (cfg_host c) (cfg_port c) (cfg_key c) (cfg_cert c)) <$> httpsConfig |}.

(** The functions the facade hands to its HTTP instance as callbacks.
    The HTTPS instance is handed the caller's callback, directly or
    wrapped in [function () { callback(); }], which does the same. *)
Inductive continuation :=
  | StartHttps (callback : nat)   (* function () { httpsServerMock.start(...callback...); } *)
  | StopHttps (callback : nat).   (* function () { httpsServerMock.stop(callback); } *)

(** The number under which the HTTP instance knows such a function. *)
Definition code (k : continuation) : nat :=
  match k with
  | StartHttps callback => 2 * callback
  | StopHttps callback => S (2 * callback)
  end.

Definition decode (n : nat) : continuation :=
  if Nat.even n then StartHttps (Nat.div2 n) else StopHttps (Nat.div2 n).

(** What the facade does to the outside: requests to one of the two
    transports, and calls of the caller's callbacks. *)
Inductive mock_effect :=
  | Http (e : effect)
  | Https (e : effect)
  | Done (callback : nat).

Definition set_http (s : option server) (m : mock) : mock :=
  {| httpServerMock := s; httpsServerMock := httpsServerMock m |}.

Definition set_https (s : option server) (m : mock) : mock :=
  {| httpServerMock := httpServerMock m; httpsServerMock := s |}.

Definition from_https (es : list effect) : list mock_effect :=
  (λ e, match e with Callback callback => Done callback | _ => Https e end) <$> es.

(** Calling one of the functions handed to the HTTP instance. *)
Definition run (k : continuation) (m : mock) : mock * list mock_effect :=
  match k, httpsServerMock m with
  | StartHttps callback, None => (m, [Done callback])
  | StartHttps callback, Some s =>
      let '(s', es) := start callback s in (set_https (Some s') m, from_https es)
  | StopHttps callback, None => (m, [Done callback])
  | StopHttps callback, Some s =>
      let '(s', es) := stop callback s in (set_https (Some s') m, from_https es)
  end.

Fixpoint from_http (es : list effect) (m : mock) : mock * list mock_effect :=
  match es with
  | [] => (m, [])
  | e :: rest =>
      let '(m1, o1) := match e with
                       | Callback n => run (decode n) m
                       | _ => (m, [Http e])
                       end in
      let '(m2, o2) := from_http rest m1 in
      (m2, o1 ++ o2)
  end.

Definition will (d : descriptor) (m : mock) : mock * ret :=
  (* httpServerMock.will(handler) *)
  let '(http, d1) := match httpServerMock m with
                     | Some s => (Some (will d s).1, rewritten d)
                     | None => (None, d)
                     end in
  (* httpsServerMock.will(handler) *)
  let https := (λ s, (will d1 s).1) <$> httpsServerMock m in
  ({| httpServerMock := http; httpsServerMock := https |}, This).

Definition start (callback : nat) (m : mock) : mock * list mock_effect :=
  match httpServerMock m with
  | None => run (StartHttps callback) m
  | Some s =>
      let '(s', es) := start (code (StartHttps callback)) s in
      from_http es (set_http (Some s') m)
  end.

Definition stop (callback : nat) (m : mock) : mock * list mock_effect :=
  match httpServerMock m with
  | None => run (StopHttps callback) m
  | Some s =>
      let '(s', es) := stop (code (StopHttps callback)) s in
      from_http es (set_http (Some s') m)
  end.

(** What the transports report, each to its instance. *)
Definition react_http (sg : signal) (m : mock) : mock * list mock_effect :=
  match httpServerMock m with
  | None => (m, [])
  | Some s => let '(s', es) := react sg s in from_http es (set_http (Some s') m)
  end.

Definition react_https (sg : signal) (m : mock) : mock * list mock_effect :=
  match httpsServerMock m with
  | None => (m, [])
  | Some s => let '(s', es) := react sg s in (set_https (Some s') m, from_https es)
  end.

End ServerMock.

(** A facade with both protocols, one with HTTP only, one with none. *)
Module MockSample.

Definition plain : ServerMock.config :=
  {| ServerMock.cfg_host := "localhost"; ServerMock.cfg_port := 8080;
     ServerMock.cfg_key := None; ServerMock.cfg_cert := None |}.

Definition tls : ServerMock.config :=
  {| ServerMock.cfg_host := "localhost"; ServerMock.cfg_port := 8443;
     ServerMock.cfg_key := Some "key"; ServerMock.cfg_cert := Some "cert" |}.

Definition both : ServerMock.mock := ServerMock.ServerMock (Some plain) (Some tls).
Definition http_only : ServerMock.mock := ServerMock.ServerMock (Some plain) None.
Definition neither : ServerMock.mock := ServerMock.ServerMock None None.

(** Both protocols, started and listening. *)
Definition both_listening : ServerMock.mock :=
  (ServerMock.react_https Listening
     (ServerMock.react_http Listening (ServerMock.start 1 both).1).1).1.

End MockSample.

(** * Properties *)

(** ** Registration *)

(** C7. [will] stores the descriptor with defaults for the keys it lacks
    and nothing else changed: an absent [when] is "GET", an absent
    [reply.status] is 200, an absent [reply.body] is the empty string, an
    absent [reply.headers] is the single entry content-type:
    application/json; every key the descriptor has keeps its value, falsy
    or not, header entries included (a header set that lacks content-type
    receives the default entry next to its own). The handler is appended
    to the table and the call returns the server itself. *)
Theorem will_applies_defaults (d : descriptor) (s : server) :
  let r := default empty_reply (d_reply d) in
  ∃ h : handler,
    will d s = (set_handlers (srv_handlers s ++ [h]) s, This)
    ∧ h_when h = default "GET" (d_when d)
    ∧ r_status (h_reply h) = default (Lit (VNum 200)) (d_status r)
    ∧ r_body (h_reply h) = default (Lit (VStr "")) (d_body r)
    ∧ (d_headers r = None →
       r_headers (h_reply h) = {[ "content-type" := VStr "application/json" ]})
    ∧ (∀ hs k, d_headers r = Some hs →
       r_headers (h_reply h) !! k
       = match hs !! k with
         | Some v => Some v
         | None => if decide (k = "content-type")
                   then Some (VStr "application/json") else None
         end)
    ∧ h_on h = d_on d
    ∧ h_filter h = d_filter d
    ∧ r_headersOverrides (h_reply h) = d_headersOverrides r
    ∧ h_delay h = d_delay d.
Proof.
  intros r. exists (registered d). subst r.
  unfold will, registered, extend_reply, extend, default_headers.
  destruct d as [w o f [[st bd hd ov]|] dl]; simpl.
  - split_and!; try (destruct st; reflexivity); try (destruct bd; reflexivity);
      try (destruct ov; reflexivity).
    + intros ->. reflexivity.
    + intros hs k ->. simpl. rewrite lookup_union.
      case_decide as Hd.
      * subst k. rewrite lookup_singleton_eq.
        destruct (hs !! "content-type"); reflexivity.
      * rewrite lookup_singleton_ne by congruence.
        destruct (hs !! k); reflexivity.
  - split_and!; try reflexivity.
    intros hs k Hn. discriminate Hn.
Qed.

Lemma will_applies_defaults_witness :
  ∃ h : handler,
    will Sample.ping Sample.fresh = (set_handlers [h] Sample.fresh, This)
    ∧ h_when h = "GET"
    ∧ r_status (h_reply h) = Lit (VNum 200)
    ∧ r_body (h_reply h) = Lit (VStr "pong")
    ∧ r_headers (h_reply h) = {[ "content-type" := VStr "application/json" ]}.
Proof.
  destruct (will_applies_defaults Sample.ping Sample.fresh)
    as (h & Hw & Hwhen & Hst & Hb & Hh & _).
  exists h. split_and!; [exact Hw|exact Hwhen|exact Hst|exact Hb|].
  apply Hh. reflexivity.
Defined.

(** ** Life cycle *)

(** C9. [stop] on an instance with no listener (never started, or closed
    since) calls the completion callback at once and does nothing else:
    no other effect, and the instance is left as it was. *)
Theorem stop_without_listener (callback : nat) (s : server) :
  srv_server s = None →
  stop callback s = (s, [Callback callback]).
Proof. intros Hs. unfold stop. rewrite Hs. reflexivity. Qed.

Lemma stop_without_listener_witness :
  srv_server Sample.fresh = None
  ∧ stop 7 Sample.fresh = (Sample.fresh, [Callback 7%nat]).
Proof.
  split; [reflexivity|]. apply (stop_without_listener 7 Sample.fresh). reflexivity.
Defined.

(** ** The scan of the handler table *)

Section Scan.

Variable url_parse : string -> url_parts.

Lemma set_url_idemp (req : request) : set_url url_parse (set_url url_parse req) = set_url url_parse req.
Proof. reflexivity. Qed.

Lemma set_url_method (req : request) : req_method (set_url url_parse req) = req_method req.
Proof. reflexivity. Qed.

(** With nothing handled yet, the guard passes over exactly the handlers
    that do not match, and the only thing it may do is call the filter. *)
Lemma skips_unhandled (i : nat) (h : handler) (req : request) :
  ∃ t, skips url_parse i h false (set_url url_parse req) = (negb (matches url_parse h req), t)
       ∧ (t = [] ∨ t = [EvFilter i]).
Proof.
  unfold skips, matches. simpl.
  destruct (method_differs h (set_url url_parse req)); simpl; [eauto|].
  destruct (path_differs url_parse h (set_url url_parse req)); simpl; [eauto|].
  destruct (h_filter h) as [f|]; simpl; eauto.
Qed.

Lemma skips_handled (i : nat) (h : handler) (req : request) :
  skips url_parse i h true req = (true, []).
Proof. reflexivity. Qed.

(** Once a handler took the request, the rest of the loop does nothing. *)
Lemma each_handler_handled (i : nat) (hs : list handler) (req : request) :
  each_handler url_parse i hs true req
  = {| sc_handlers := hs; sc_handled := true;
       sc_req := match hs with [] => req | _ => set_url url_parse req end;
       sc_trace := [] |}.
Proof.
  revert i req. induction hs as [|h rest IH]; intros i req; simpl; [reflexivity|].
  rewrite IH. destruct rest; reflexivity.
Qed.

Lemma is_filter_call_mono (b b' : nat) (e : event) :
  (b ≤ b')%nat → is_filter_call b e → is_filter_call b' e.
Proof. intros Hle (k & -> & Hk). exists k. split; [reflexivity|lia]. Qed.

(** A stretch of handlers none of which matches is left alone; the loop
    goes on behind it with nothing handled. *)
Lemma each_handler_skip (i : nat) (pre post : list handler) (req req' : request) :
  set_url url_parse req' = set_url url_parse req →
  Forall (λ h, matches url_parse h req = false) pre →
  pre ≠ [] →
  let rest := each_handler url_parse (i + List.length pre) post false (set_url url_parse req) in
  ∃ t, Forall (is_filter_call (i + List.length pre)) t
    ∧ sc_handlers (each_handler url_parse i (pre ++ post) false req') = pre ++ sc_handlers rest
    ∧ sc_handled (each_handler url_parse i (pre ++ post) false req') = sc_handled rest
    ∧ sc_req (each_handler url_parse i (pre ++ post) false req') = sc_req rest
    ∧ sc_trace (each_handler url_parse i (pre ++ post) false req') = t ++ sc_trace rest.
Proof.
  intros Heq Hpre. revert i req' Heq.
  induction Hpre as [|h pre Hh Hpre IH]; intros i req' Heq Hne; [congruence|clear Hne].
  cbn [app each_handler List.length]. rewrite Heq.
  destruct (skips_unhandled i h req) as (t & Hsk & Ht). rewrite Hsk, Hh. cbn.
  assert (Ft : Forall (is_filter_call (S i)) t).
  { destruct Ht as [->| ->]; [constructor|]. constructor; [|constructor].
    exists i. split; [reflexivity|lia]. }
  destruct pre as [|h2 pre].
  - cbn [app List.length]. replace (i + 1)%nat with (S i) by lia.
    exists t. split_and!; try reflexivity. exact Ft.
  - destruct (IH (S i) (set_url url_parse req) eq_refl ltac:(discriminate))
      as (t' & Ft' & E1 & E2 & E3 & E4).
    replace (S i + List.length (h2 :: pre))%nat
      with (i + S (List.length (h2 :: pre)))%nat in * by lia.
    exists (t ++ t'). split_and!.
    + apply Forall_app. split; [|exact Ft'].
      eapply Forall_impl; [exact Ft|]. intros e. apply is_filter_call_mono. lia.
    + rewrite E1. reflexivity.
    + exact E2.
    + exact E3.
    + rewrite E4. rewrite (assoc_L (++)). reflexivity.
Qed.

(** The handler that matches with nothing handled before it answers. *)
Lemma each_handler_take (i : nat) (h : handler) (post : list handler) (req : request) :
  matches url_parse h req = true →
  ∃ t, (t = [] ∨ t = [EvFilter i])
    ∧ each_handler url_parse i (h :: post) false req
      = {| sc_handlers := (respond i h (set_url url_parse req)).1 :: post;
           sc_handled := true;
           sc_req := set_url url_parse req;
           sc_trace := t ++ (respond i h (set_url url_parse req)).2 |}.
Proof.
  intros Hm. cbn [each_handler].
  destruct (skips_unhandled i h req) as (t & Hsk & Ht). rewrite Hsk, Hm. cbn.
  destruct (respond i h (set_url url_parse req)) as [h' t2] eqn:Hr.
  rewrite each_handler_handled. cbn. rewrite (right_id_L [] (++)).
  exists t. split; [exact Ht|]. destruct post; reflexivity.
Qed.

(** The shape of a scan whose first matching handler is at index [i]. *)
Lemma each_handler_first_match (hs : list handler) (req : request) (i : nat)
    (h : handler) :
  hs !! i = Some h →
  matches url_parse h req = true →
  (∀ k hk, (k < i)%nat → hs !! k = Some hk → matches url_parse hk req = false) →
  ∃ t, Forall (is_filter_call (S i)) t
    ∧ sc_handlers (each_handler url_parse 0 hs false req) = <[i := (respond i h (set_url url_parse req)).1]> hs
    ∧ sc_handled (each_handler url_parse 0 hs false req) = true
    ∧ sc_trace (each_handler url_parse 0 hs false req) = t ++ (respond i h (set_url url_parse req)).2.
Proof.
  intros Hi Hm Hbefore.
  assert (Hlen : (i < List.length hs)%nat) by (eapply lookup_lt_Some; exact Hi).
  pose proof (take_drop_middle hs i h Hi) as Hsplit.
  assert (Hpre : Forall (λ x, matches url_parse x req = false) (take i hs)).
  { apply Forall_lookup. intros k x Hk.
    apply lookup_take_Some in Hk as [Hk Hlt]. eapply Hbefore; eassumption. }
  assert (Hins : <[i := (respond i h (set_url url_parse req)).1]> hs
                 = take i hs ++ (respond i h (set_url url_parse req)).1 :: drop (S i) hs).
  { rewrite <- Hsplit at 1. rewrite insert_app_r_alt by (rewrite length_take; lia).
    rewrite length_take. replace (i - i `min` List.length hs)%nat with 0%nat by lia.
    reflexivity. }
  rewrite Hins.
  destruct (decide (take i hs = [])) as [He|Hne].
  - assert (i = 0)%nat as ->.
    { apply (f_equal List.length) in He. rewrite length_take in He. simpl in He. lia. }
    rewrite He in *. cbn [app] in *.
    destruct (each_handler_take 0 h (drop 1 hs) req Hm) as (t & Ht & E).
    rewrite Hsplit in E. rewrite E. cbn.
    exists t. split_and!; try reflexivity.
    destruct Ht as [->| ->]; [constructor|]. constructor; [|constructor].
    exists 0%nat. split; [reflexivity|lia].
  - destruct (each_handler_skip 0 (take i hs) (h :: drop (S i) hs) req req eq_refl Hpre Hne)
      as (t & Ft & E1 & E2 & E3 & E4).
    rewrite length_take in *. replace (0 + i `min` List.length hs)%nat with i in * by lia.
    destruct (each_handler_take i h (drop (S i) hs) (set_url url_parse req)) as (t' & Ht' & E).
    { exact Hm. }
    rewrite set_url_idemp in E. rewrite E in *. cbn in E1, E2, E3, E4.
    rewrite Hsplit in E1, E2, E4.
    exists (t ++ t'). split_and!.
    + apply Forall_app. split.
      * eapply Forall_impl; [exact Ft|]. intros e. apply is_filter_call_mono. lia.
      * destruct Ht' as [->| ->]; [constructor|]. constructor; [|constructor].
        exists i. split; [reflexivity|lia].
    + exact E1.
    + exact E2.
    + rewrite E4. rewrite (assoc_L (++)). reflexivity.
Qed.

(** A scan over handlers none of which matches: nothing is handled, the
    table is as before, and only filters were called. *)
Lemma each_handler_no_match (hs : list handler) (req : request) :
  Forall (λ h, matches url_parse h req = false) hs →
  sc_handlers (each_handler url_parse 0 hs false req) = hs
  ∧ sc_handled (each_handler url_parse 0 hs false req) = false
  ∧ Forall (is_filter_call (List.length hs)) (sc_trace (each_handler url_parse 0 hs false req)).
Proof.
  intros Hall. destruct (decide (hs = [])) as [->|Hne]; [cbn; auto|].
  destruct (each_handler_skip 0 hs [] req req eq_refl Hall Hne) as (t & Ft & E1 & E2 & E3 & E4).
  rewrite (right_id_L [] (++) hs) in E1, E2, E3, E4. cbn in E1, E2, E4.
  rewrite (right_id_L [] (++)) in E1. rewrite (right_id_L [] (++)) in E4.
  split_and!; [exact E1|exact E2|]. rewrite E4. exact Ft.
Qed.

End Scan.

(** ** The response of the selected handler *)

Lemma send_shape (h : handler) (req : request) (content st : value) :
  (content_length content = None ∧ send h req content st = (h, [EvTypeError]))
  ∨ ∃ n, content_length content = Some n
      ∧ send h req content st
        = (set_headers (merged_headers h n) h,
           [EvTimeout (default 0 (h_delay h))
              (WriteHead st (headersToSend (merged_headers h n))
               :: (if negb (String.eqb (req_method req) "HEAD")
                   then [Write content (if isBuffer content then None else Some "utf8")]
                   else [])
               ++ [End None])]).
Proof.
  unfold send. destruct (content_length content) as [n|]; [right|left; auto].
  exists n. split; reflexivity.
Qed.

(** Either the body function never calls back and nothing more happens,
    or the trace is: the body call if any, the body continuation, the
    status call if any, the status continuation, the sending. *)
Lemma respond_shape (i : nat) (h : handler) (req : request) :
  (respond i h req = (h, [EvBodyCall i])
   ∧ ∃ f, r_body (h_reply h) = Fn f ∧ (1 < fn_length f)%nat ∧ fn_send f req = None)
  ∨ ∃ bc content sc st,
      (bc = [] ∨ bc = [EvBodyCall i])
      ∧ (sc = [] ∨ sc = [EvStatusCall i])
      ∧ respond i h req
        = ((send h req content st).1,
           bc ++ EvBody i content :: sc ++ EvStatus i st :: (send h req content st).2).
Proof.
  unfold respond, _getResponseBody, _getResponseStatus, log.
  destruct (r_body (h_reply h)) as [v|f].
  - right. destruct (r_status (h_reply h)) as [w|g]; cbn.
    + exists [], (js_or v (VStr "")), [], (js_or w (VNum 0)). auto.
    + exists [], (js_or v (VStr "")), [EvStatusCall i], (js_or (fn_return g req) (VNum 0)). auto.
  - destruct (fn_length f <=? 1)%nat eqn:Hlen.
    + right. destruct (r_status (h_reply h)) as [w|g]; cbn.
      * exists [EvBodyCall i], (js_or (fn_return f req) (VStr "")), [], (js_or w (VNum 0)). auto.
      * exists [EvBodyCall i], (js_or (fn_return f req) (VStr "")), [EvStatusCall i],
          (js_or (fn_return g req) (VNum 0)). auto.
    + apply Nat.leb_gt in Hlen. destruct (fn_send f req) as [v|] eqn:Hsend.
      * right. destruct (r_status (h_reply h)) as [w|g]; cbn.
        -- exists [EvBodyCall i], v, [], (js_or w (VNum 0)). auto.
        -- exists [EvBodyCall i], v, [EvStatusCall i], (js_or (fn_return g req) (VNum 0)). auto.
      * left. split; [reflexivity|]. exists f. auto.
Qed.

(** Everything [respond] does on behalf of handler [i] is about [i]. *)
Lemma respond_about (i : nat) (h : handler) (req : request) (e : event) (k : nat) :
  e ∈ (respond i h req).2 → about e = Some k → k = i.
Proof.
  destruct (respond_shape i h req) as [[-> _]|(bc & c & sc & st & Hbc & Hsc & ->)]; cbn.
  - intros ->%list_elem_of_singleton. cbn. congruence.
  - rewrite elem_of_app, elem_of_cons, elem_of_app, elem_of_cons.
    intros [Hin|[->|[Hin|[->|Hin]]]]; cbn; try congruence.
    + destruct Hbc as [->| ->]; [by apply elem_of_nil in Hin|].
      apply list_elem_of_singleton in Hin as ->. cbn. congruence.
    + destruct Hsc as [->| ->]; [by apply elem_of_nil in Hin|].
      apply list_elem_of_singleton in Hin as ->. cbn. congruence.
    + destruct (send_shape h req c st) as [[_ E]|(n & _ & E)]; rewrite E in Hin; cbn in Hin;
        apply list_elem_of_singleton in Hin as ->; cbn; congruence.
Qed.

Lemma written_app (t1 t2 : list event) : written (t1 ++ t2) = written t1 ++ written t2.
Proof. unfold written. apply flat_map_app. Qed.

Lemma written_filter_calls (b : nat) (t : list event) :
  Forall (is_filter_call b) t → written t = [].
Proof.
  induction 1 as [|e t (k & -> & _) _ IH]; [reflexivity|]. cbn. exact IH.
Qed.

(** ** Dispatch *)

Section Dispatch_facts.

Variable url_parse : string -> url_parts.
Variable form_parse :
  request -> option (gmap string (list string) * gmap string (list string)).

(** [_multipart] hands exactly one request on. *)
Lemma _multipart_next {R} (req : request) (next : request → R) :
  _multipart form_parse req next = next (_multipart form_parse req (λ r, r)).
Proof.
  unfold _multipart.
  destruct (negb (String.eqb (req_method req) "POST")
            && negb (String.eqb (req_method req) "PUT")); [reflexivity|].
  destruct (negb _); [reflexivity|].
  destruct (form_parse req) as [[fields files]|]; reflexivity.
Qed.

(** C1. When two handlers match a request, the dispatcher answers with
    the first-registered matching one: what is written on the response is
    what that handler's reply gives, the only things done before are
    filter calls of handlers up to it, nothing at all is done on behalf of
    a handler after it (no filter call, no body or status resolution), the
    default responder is not reached, and only its own table entry can
    have changed. *)
Theorem first_match_wins (hs : list handler) (req : request)
    (next : request → list event) (i j : nat) (hi hj : handler) :
  hs !! i = Some hi →
  hs !! j = Some hj →
  (i < j)%nat →
  matches url_parse hi req = true →
  matches url_parse hj req = true →
  (∀ k hk, (k < i)%nat → hs !! k = Some hk → matches url_parse hk req = false) →
  let r := respond i hi (set_url url_parse req) in
  let out := _handleMockedRequest url_parse hs req next in
  written out.2 = written r.2
  ∧ (∃ pre, out.2 = pre ++ r.2 ∧ Forall (is_filter_call (S i)) pre)
  ∧ (∀ e k, e ∈ out.2 → about e = Some k → (k ≤ i)%nat)
  ∧ (∀ e, e ∈ out.2 → about e ≠ Some j)
  ∧ out.1 = <[i := r.1]> hs.
Proof.
  intros Hi Hj Hij Hmi Hmj Hbefore r out.
  destruct (each_handler_first_match url_parse hs req i hi Hi Hmi Hbefore)
    as (t & Ft & E1 & E2 & E4).
  subst out r. unfold _handleMockedRequest. cbn. rewrite E1, E2, E4. cbn.
  rewrite (right_id_L [] (++)).
  assert (Hle : ∀ e k, e ∈ t ++ (respond i hi (set_url url_parse req)).2 →
                       about e = Some k → (k ≤ i)%nat).
  { intros e k [Hin|Hin]%elem_of_app Hab.
    - apply (proj1 (Forall_forall _ _) Ft) in Hin as (k' & -> & Hk').
      cbn in Hab. injection Hab as <-. lia.
    - apply (respond_about _ _ _ _ _ Hin) in Hab. lia. }
  split_and!.
  - rewrite written_app, (written_filter_calls _ _ Ft). reflexivity.
  - exists t. split; [reflexivity|exact Ft].
  - exact Hle.
  - intros e Hin Hab. specialize (Hle e j Hin Hab). lia.
  - reflexivity.
Qed.

(** C2. A request that no registered handler matches, whatever its
    method and whatever the table (the empty one included), is answered by
    the default responder: status 404, the two headers content-type:
    plain/text and content-length: 9, and the body "Not Found"; the
    server is left as it was. *)
Theorem no_match_gives_404 (s : server) (req : request) :
  Forall (λ h, matches url_parse h (_multipart form_parse req (λ r, r)) = false)
         (srv_handlers s) →
  written (connectApp url_parse form_parse s req).2
  = [ WriteHead (VNum 404)
        {[ "content-type" := VStr "plain/text"; "content-length" := VNum 9 ]};
      End (Some (VStr "Not Found")) ]
  ∧ response_of (written (connectApp url_parse form_parse s req).2)
    = Some {| status := VNum 404;
              headers := {[ "content-type" := VStr "plain/text";
                            "content-length" := VNum 9 ]};
              body := [VStr "Not Found"] |}
  ∧ (connectApp url_parse form_parse s req).1 = s.
Proof.
  intros Hall. unfold connectApp. rewrite _multipart_next.
  destruct (each_handler_no_match url_parse _ _ Hall) as (E1 & E2 & Ft).
  unfold _handleMockedRequest. rewrite E1, E2. cbn [negb fst snd].
  rewrite written_app, (written_filter_calls _ _ Ft). cbn.
  split_and!; try reflexivity. destruct s; reflexivity.
Qed.

(** C10. A handler with a filter matches only when the filter returns
    the boolean [true] itself; on any other result, truthy or not, the
    handler is passed over untouched and the scan goes on with the
    handlers behind it, nothing being handled yet. *)
Theorem filter_must_return_true (h : handler) (f : jsfun) (req : request)
    (i : nat) (rest : list handler) :
  h_filter h = Some f →
  (matches url_parse h req = true → fn_return f (set_url url_parse req) = VBool true)
  ∧ (fn_return f (set_url url_parse req) ≠ VBool true →
     matches url_parse h req = false
     ∧ let s := each_handler url_parse i (h :: rest) false req in
       let s' := each_handler url_parse (S i) rest false (set_url url_parse req) in
       sc_handlers s = h :: sc_handlers s'
       ∧ sc_handled s = sc_handled s'
       ∧ ∃ pre, (pre = [] ∨ pre = [EvFilter i]) ∧ sc_trace s = pre ++ sc_trace s').
Proof.
  intros Hf.
  assert (Honly : matches url_parse h req = true →
                  fn_return f (set_url url_parse req) = VBool true).
  { unfold matches. rewrite Hf. intros [_ Ht]%andb_true_iff.
    destruct (fn_return f (set_url url_parse req)) as [| |[|]| | | | |]; cbn in Ht;
      congruence. }
  split; [exact Honly|]. intros Hne.
  assert (Hm : matches url_parse h req = false).
  { destruct (matches url_parse h req); [|reflexivity]. destruct Hne. auto. }
  split; [exact Hm|]. cbn [each_handler].
  destruct (skips_unhandled url_parse i h req) as (t & Hsk & Ht). rewrite Hsk, Hm. cbn.
  split_and!; try reflexivity. exists t. auto.
Qed.

End Dispatch_facts.

(** ** The header object a response leaves behind *)

Lemma extend_lookup {A} (obj src : gmap string A) (k : string) :
  extend obj src !! k = match src !! k with Some v => Some v | None => obj !! k end.
Proof.
  unfold extend. rewrite lookup_union.
  destruct (src !! k), (obj !! k); reflexivity.
Qed.

Lemma merged_headers_lookup (h : handler) (n : Z) (k : string) :
  merged_headers h n !! k
  = match default ∅ (r_headersOverrides (h_reply h)) !! k with
    | Some v => Some v
    | None => if decide (k = "content-length") then Some (VNum n)
              else r_headers (h_reply h) !! k
    end.
Proof.
  unfold merged_headers, extend. rewrite !lookup_union.
  destruct (default ∅ (r_headersOverrides (h_reply h)) !! k) as [v|].
  - match goal with |- Some _ ∪ ?x = _ => destruct x; reflexivity end.
  - case_decide as Hk.
    + subst k. rewrite lookup_singleton_eq.
      destruct (r_headers (h_reply h) !! "content-length"); reflexivity.
    + rewrite lookup_singleton_ne by congruence.
      destruct (r_headers (h_reply h) !! k); reflexivity.
Qed.

(** Merging into an already merged header object gives what merging into
    the registered one gives. *)
Lemma merged_headers_absorb (h : handler) (n m : Z) :
  merged_headers (set_headers (merged_headers h n) h) m = merged_headers h m.
Proof.
  apply map_eq. intros k. rewrite !merged_headers_lookup. cbn.
  rewrite merged_headers_lookup.
  destruct (default ∅ (r_headersOverrides (h_reply h)) !! k); [reflexivity|].
  case_decide; reflexivity.
Qed.

Lemma set_headers_twice (h : handler) (a b : gmap string value) :
  set_headers b (set_headers a h) = set_headers b h.
Proof. reflexivity. Qed.

Lemma settled_refl (h : handler) : settled h h.
Proof. left. reflexivity. Qed.

Lemma send_settled (h0 h : handler) (req : request) (content st : value) :
  settled h0 h →
  (send h req content st).2 = (send h0 req content st).2
  ∧ settled h0 (send h req content st).1.
Proof.
  intros [->|[m ->]].
  - split; [reflexivity|].
    destruct (send_shape h0 req content st) as [[_ ->]|(n & _ & ->)]; cbn.
    + apply settled_refl.
    + right. exists n. reflexivity.
  - unfold send. destruct (content_length content) as [n|]; cbn.
    + rewrite merged_headers_absorb. split; [reflexivity|].
      right. exists n. reflexivity.
    + split; [reflexivity|]. right. exists m. reflexivity.
Qed.

Lemma respond_settled (i : nat) (h0 h : handler) (req : request) :
  settled h0 h →
  (respond i h req).2 = (respond i h0 req).2
  ∧ settled h0 (respond i h req).1.
Proof.
  intros Hs.
  assert (Hb : r_body (h_reply h) = r_body (h_reply h0))
    by (destruct Hs as [->|[m ->]]; reflexivity).
  assert (Hst : r_status (h_reply h) = r_status (h_reply h0))
    by (destruct Hs as [->|[m ->]]; reflexivity).
  unfold respond, _getResponseBody, _getResponseStatus, log. rewrite Hb, Hst.
  destruct (r_body (h_reply h0)) as [v|f];
    [|destruct (fn_length f <=? 1)%nat; [|destruct (fn_send f req) as [v|]]];
    try (destruct (r_status (h_reply h0)) as [w|g]; cbn;
         match goal with
         | |- context [send h req ?c ?s] =>
             destruct (send_settled h0 h req c s Hs) as [-> ?]
         end; (split; [reflexivity|assumption])).
  cbn. split; [reflexivity|exact Hs].
Qed.

Lemma matches_settled (url_parse : string → url_parts) (h0 h : handler) (req : request) :
  settled h0 h → matches url_parse h req = matches url_parse h0 req.
Proof. intros [->|[m ->]]; reflexivity. Qed.

Lemma skips_settled (url_parse : string → url_parts) (i : nat) (h0 h : handler)
    (handled : bool) (req : request) :
  settled h0 h → skips url_parse i h handled req = skips url_parse i h0 handled req.
Proof. intros [->|[m ->]]; reflexivity. Qed.

Lemma each_handler_settled (url_parse : string → url_parts) (hs0 hs : list handler) :
  Forall2 settled hs0 hs →
  ∀ i handled req,
    Forall2 settled hs0 (sc_handlers (each_handler url_parse i hs handled req))
    ∧ sc_handled (each_handler url_parse i hs handled req)
      = sc_handled (each_handler url_parse i hs0 handled req)
    ∧ sc_req (each_handler url_parse i hs handled req)
      = sc_req (each_handler url_parse i hs0 handled req)
    ∧ sc_trace (each_handler url_parse i hs handled req)
      = sc_trace (each_handler url_parse i hs0 handled req).
Proof.
  induction 1 as [|h0 h hs0 hs Hs Hrest IH]; intros i handled req.
  - cbn. split_and!; try reflexivity. constructor.
  - cbn [each_handler]. rewrite (skips_settled url_parse i h0 h _ _ Hs).
    destruct (skips url_parse i h0 handled (set_url url_parse req)) as [[|] t1].
    + destruct (IH (S i) handled (set_url url_parse req)) as (F & E2 & E3 & E4). cbn.
      split_and!; [constructor; assumption|assumption|assumption|].
      rewrite E4. reflexivity.
    + destruct (respond_settled i h0 h (set_url url_parse req) Hs) as [Et Hs'].
      destruct (respond i h (set_url url_parse req)) as [h' t2].
      destruct (respond i h0 (set_url url_parse req)) as [h0' t02].
      cbn in Et, Hs'. subst t02.
      destruct (IH (S i) true (set_url url_parse req)) as (F & E2 & E3 & E4). cbn.
      split_and!; [constructor; assumption|assumption|assumption|].
      rewrite E4. reflexivity.
Qed.

Lemma same_but_headers_refl (s : server) : same_but_headers s s.
Proof.
  split; [|destruct s; reflexivity].
  apply Forall2_same_length_lookup_2; [reflexivity|].
  intros i x y Hx Hy. rewrite Hx in Hy. injection Hy as ->. apply settled_refl.
Qed.

Lemma connectApp_unfold (url_parse : string → url_parts)
    (form_parse : request → option (gmap string (list string) * gmap string (list string)))
    (s : server) (req : request) :
  connectApp url_parse form_parse s req
  = let sc := each_handler url_parse 0 (srv_handlers s) false
                (_multipart form_parse req (λ r, r)) in
    (set_handlers (sc_handlers sc) s,
     sc_trace sc ++ (if negb (sc_handled sc) then _handleDefaultRequest (sc_req sc) else [])).
Proof. unfold connectApp. rewrite _multipart_next. reflexivity. Qed.

(** What the stack writes for a request whose first matching handler is
    at index [i] is what that handler's reply gives. *)
Lemma connectApp_first_match (url_parse : string → url_parts)
    (form_parse : request → option (gmap string (list string) * gmap string (list string)))
    (s : server) (req : request) (i : nat) (h : handler) :
  let req' := _multipart form_parse req (λ r, r) in
  srv_handlers s !! i = Some h →
  matches url_parse h req' = true →
  (∀ k hk, (k < i)%nat → srv_handlers s !! k = Some hk →
           matches url_parse hk req' = false) →
  written (connectApp url_parse form_parse s req).2
  = written (respond i h (set_url url_parse req')).2
  ∧ srv_handlers (connectApp url_parse form_parse s req).1
    = <[i := (respond i h (set_url url_parse req')).1]> (srv_handlers s).
Proof.
  intros req' Hi Hm Hbefore. rewrite connectApp_unfold. fold req'.
  destruct (each_handler_first_match url_parse _ req' i h Hi Hm Hbefore)
    as (t & Ft & E1 & E2 & E4).
  cbn. rewrite E1, E2, E4. cbn. rewrite (right_id_L [] (++)).
  rewrite written_app, (written_filter_calls _ _ Ft). split; reflexivity.
Qed.

Lemma connectApp_settled (url_parse : string → url_parts)
    (form_parse : request → option (gmap string (list string) * gmap string (list string)))
    (s0 s : server) (req : request) :
  same_but_headers s0 s →
  (connectApp url_parse form_parse s req).2 = (connectApp url_parse form_parse s0 req).2
  ∧ same_but_headers s0 (connectApp url_parse form_parse s req).1.
Proof.
  intros [Hall Hrest]. rewrite (connectApp_unfold _ _ s), (connectApp_unfold _ _ s0).
  set (req' := _multipart form_parse req (λ r, r)).
  destruct (each_handler_settled url_parse _ _ Hall 0%nat false req') as (F & E2 & E3 & E4).
  cbn. rewrite E2, E3, E4. split; [reflexivity|].
  split; [exact F|]. rewrite <- Hrest. destruct s; reflexivity.
Qed.

Lemma serve_settled (url_parse : string → url_parts)
    (form_parse : request → option (gmap string (list string) * gmap string (list string)))
    (reqs : list request) (s0 s : server) :
  same_but_headers s0 s →
  same_but_headers s0 (serve url_parse form_parse s reqs).1.
Proof.
  revert s. induction reqs as [|req reqs IH]; intros s Hs; cbn; [exact Hs|].
  destruct (connectApp_settled url_parse form_parse s0 s req Hs) as [_ Hs1].
  destruct (connectApp url_parse form_parse s req) as [s1 t]. cbn in Hs1.
  specialize (IH s1 Hs1).
  destruct (serve url_parse form_parse s1 reqs) as [s2 ts]. exact IH.
Qed.

(** ** What a resolved body leads to *)

Lemma no_numeric_length_dictionary (hs : gmap string value) :
  no_numeric_length hs → isArrayLike hs = None.
Proof.
  intros H. unfold isArrayLike. specialize (H 0) as H0.
  destruct (hs !! "length") as [[]|] eqn:E; try reflexivity.
  exfalso. exact (H _ E).
Qed.

Lemma headersToSend_lookup (hs : gmap string value) (k : string) :
  no_numeric_length hs →
  headersToSend hs !! k
  = match hs !! k with
    | Some VNull => None
    | other => other
    end.
Proof.
  intros Hd. unfold headersToSend. rewrite (no_numeric_length_dictionary hs Hd).
  rewrite map_lookup_filter.
  destruct (hs !! k) as [v|]; cbn; [|reflexivity].
  destruct v; cbn; first [rewrite option_guard_True by exact I
                         |rewrite option_guard_False by (intros [])]; reflexivity.
Qed.

(** The trace of a handler whose body continuation ran with [content]. *)
Lemma respond_resolved (i : nat) (h : handler) (req : request) (content : value) :
  EvBody i content ∈ (respond i h req).2 →
  ∃ bc sc st,
    (bc = [] ∨ bc = [EvBodyCall i])
    ∧ (sc = [] ∨ sc = [EvStatusCall i])
    ∧ respond i h req
      = ((send h req content st).1,
         bc ++ EvBody i content :: sc ++ EvStatus i st :: (send h req content st).2).
Proof.
  destruct (respond_shape i h req) as [[-> _]|(bc & c & sc & st & Hbc & Hsc & E)].
  - cbn. intros Hin%list_elem_of_singleton. discriminate Hin.
  - rewrite E. cbn. rewrite elem_of_app, elem_of_cons, elem_of_app, elem_of_cons.
    intros [Hin|[Heq|[Hin|[Heq|Hin]]]].
    + destruct Hbc as [->| ->]; [by apply elem_of_nil in Hin|].
      apply list_elem_of_singleton in Hin. discriminate Hin.
    + injection Heq as <-. exists bc, sc, st. auto.
    + destruct Hsc as [->| ->]; [by apply elem_of_nil in Hin|].
      apply list_elem_of_singleton in Hin. discriminate Hin.
    + discriminate Heq.
    + destruct (send_shape h req c st) as [[_ Es]|(n & _ & Es)]; rewrite Es in Hin;
        cbn in Hin; apply list_elem_of_singleton in Hin; discriminate Hin.
Qed.

(** ... and, when that content has a length, what goes out. *)
Lemma respond_written (i : nat) (h : handler) (req : request) (content : value) (n : Z) :
  EvBody i content ∈ (respond i h req).2 →
  content_length content = Some n →
  ∃ st,
    EvStatus i st ∈ (respond i h req).2
    ∧ written (respond i h req).2
      = WriteHead st (headersToSend (merged_headers h n))
        :: (if negb (String.eqb (req_method req) "HEAD")
            then [Write content (if isBuffer content then None else Some "utf8")]
            else [])
        ++ [End None]
    ∧ (respond i h req).1 = set_headers (merged_headers h n) h.
Proof.
  intros Hin Hlen.
  destruct (respond_resolved i h req content Hin) as (bc & sc & st & Hbc & Hsc & E).
  destruct (send_shape h req content st) as [[Hnone _]|(n' & Hn' & Es)]; [congruence|].
  assert (n' = n) as -> by congruence.
  rewrite E, Es. cbn [fst snd]. exists st. split_and!.
  - rewrite elem_of_app, elem_of_cons, elem_of_app, elem_of_cons. auto.
  - destruct Hbc as [->| ->], Hsc as [->| ->]; cbn; rewrite (right_id_L [] (++));
      reflexivity.
  - reflexivity.
Qed.

(** ** Status and body resolution *)

(** The status continuation of a response is entered with the value the
    resolver computes. *)
Lemma respond_status (i : nat) (h : handler) (req : request) (st : value) :
  EvStatus i st ∈ (respond i h req).2 →
  st = match r_status (h_reply h) with
       | Lit v => js_or v (VNum 0)
       | Fn f => js_or (fn_return f req) (VNum 0)
       end.
Proof.
  unfold respond, _getResponseBody, _getResponseStatus, log.
  assert (Hsend : ∀ c s, EvStatus i st ∈ (send h req c s).2 → False).
  { intros c s. unfold send. destruct (content_length c); cbn;
      intros Hin%list_elem_of_singleton; discriminate Hin. }
  destruct (r_body (h_reply h)) as [v|f];
    [|destruct (fn_length f <=? 1)%nat; [|destruct (fn_send f req) as [v|]]];
    destruct (r_status (h_reply h)) as [w|g]; cbn; intros Hin;
    repeat (apply elem_of_cons in Hin as [Hin|Hin];
            [first [discriminate Hin | injection Hin as ->; reflexivity]|]);
    first [by apply Hsend in Hin | by apply elem_of_nil in Hin].
Qed.

(** C5. A [reply.status] that is not a function is handed to the
    continuation as it is when truthy and as 0 when falsy (so a literal 0
    comes out as 0), without any call; a function is called once, with the
    request, before the continuation runs, and its result is handed over
    as it is when truthy and as 0 when falsy. The status a response is
    sent with is the value so resolved. *)
Theorem status_resolution (i : nat) (h : handler) (req : request)
    (callback : value → outcome) :
  let resolved :=
    match r_status (h_reply h) with
    | Lit v => if truthy v then v else VNum 0
    | Fn f => if truthy (fn_return f req) then fn_return f req else VNum 0
    end in
  match r_status (h_reply h) with
  | Lit v =>
      _getResponseStatus i h req callback = callback resolved
      ∧ (v = VNum 0 → _getResponseStatus i h req callback = callback (VNum 0))
  | Fn f =>
      _getResponseStatus i h req callback
      = ((callback resolved).1, EvStatusCall i :: (callback resolved).2)
  end
  ∧ (∀ st, EvStatus i st ∈ (respond i h req).2 → st = resolved)
  ∧ (∀ st sent ops,
       written (respond i h req).2 = WriteHead st sent :: ops → st = resolved).
Proof.
  intros resolved.
  assert (Hst : ∀ st, EvStatus i st ∈ (respond i h req).2 → st = resolved).
  { intros st Hin. apply respond_status in Hin. subst resolved. exact Hin. }
  split_and!; [|exact Hst|].
  - subst resolved. unfold _getResponseStatus, js_or, log.
    destruct (r_status (h_reply h)) as [v|f]; [|reflexivity].
    split; [reflexivity|]. intros ->. reflexivity.
  - intros st sent ops W.
    destruct (respond_shape i h req) as [[E _]|(bc & c & sc & st0 & Hbc & Hsc & E)].
    + rewrite E in W. discriminate W.
    + assert (Hin : EvStatus i st0 ∈ (respond i h req).2).
      { rewrite E. cbn [snd].
        rewrite elem_of_app, elem_of_cons, elem_of_app, elem_of_cons. auto. }
      apply Hst in Hin. rewrite <- Hin. rewrite E in W. cbn [snd] in W.
      destruct (send_shape h req c st0) as [[_ Es]|(n & _ & Es)]; rewrite Es in W;
        destruct Hbc as [->| ->], Hsc as [->| ->]; cbn in W; congruence.
Qed.

Lemma status_resolution_witness :
  let h := registered Sample.ping_any in
  let req := Sample.get "/ping" in
  EvStatus 0 (VNum 201) ∈ (respond 0 h req).2
  ∧ VNum 201 = (if truthy (VNum 201) then VNum 201 else VNum 0).
Proof.
  intros h req.
  assert (Hin : EvStatus 0 (VNum 201) ∈ (respond 0 h req).2)
    by (right; left).
  split; [exact Hin|].
  exact (proj1 (proj2 (status_resolution 0 h req (λ st, (h, []))))
           (VNum 201) Hin).
Defined.

(** C6. [_getResponseBody] by the shape of [reply.body]: a value that
    is not a function goes to the continuation as it is when truthy and
    as the empty string when falsy; a function declaring at most one
    parameter is called with the request and its result goes on the same
    way; a function declaring two or more is called with the request and
    the continuation, which gets whatever the function hands it, and when
    the function never does, the continuation never runs: nothing is
    written and the status is never resolved. In every response the body
    continuation is entered before anything of the status resolution
    happens, and no body function is called after it. *)
Theorem body_resolution (i : nat) (h : handler) (req : request)
    (callback : value → outcome) :
  match r_body (h_reply h) with
  | Lit v =>
      _getResponseBody i h req callback = callback (if truthy v then v else VStr "")
  | Fn f =>
      if decide (fn_length f ≤ 1)%nat
      then
        let v := fn_return f req in
        _getResponseBody i h req callback
        = ((callback (if truthy v then v else VStr "")).1,
           EvBodyCall i :: (callback (if truthy v then v else VStr "")).2)
      else
        match fn_send f req with
        | Some v =>
            _getResponseBody i h req callback
            = ((callback v).1, EvBodyCall i :: (callback v).2)
        | None =>
            _getResponseBody i h req callback = (h, [EvBodyCall i])
            ∧ respond i h req = (h, [EvBodyCall i])
            ∧ written (respond i h req).2 = []
        end
  end
  ∧ ((Forall (λ e, is_status_event e = false) (respond i h req).2
      ∧ written (respond i h req).2 = [])
     ∨ ∃ t1 content t2,
         (respond i h req).2 = t1 ++ EvBody i content :: t2
         ∧ Forall (λ e, is_status_event e = false) t1
         ∧ Forall (λ e, is_body_call e = false) t2).
Proof.
  split.
  - unfold respond, _getResponseBody, js_or, log.
    destruct (r_body (h_reply h)) as [v|f]; [reflexivity|].
    case_decide as Hlen.
    + apply Nat.leb_le in Hlen. rewrite Hlen. reflexivity.
    + apply Nat.leb_nle in Hlen. rewrite Hlen.
      destruct (fn_send f req) as [v|]; [reflexivity|]. cbn. auto.
  - destruct (respond_shape i h req) as [[-> _]|(bc & c & sc & st & Hbc & Hsc & ->)].
    + left. cbn. split; [|reflexivity]. constructor; [reflexivity|constructor].
    + right. exists bc, c, (sc ++ EvStatus i st :: (send h req c st).2). cbn.
      split_and!; [reflexivity| |].
      * destruct Hbc as [->| ->]; repeat constructor.
      * apply Forall_app. split.
        -- destruct Hsc as [->| ->]; repeat constructor.
        -- constructor; [reflexivity|].
           destruct (send_shape h req c st) as [[_ ->]|(n & _ & ->)]; repeat constructor.
Qed.


(** The header precedence law, for header objects without a numeric
    [length]: the header set a handler sends for a resolved body of byte
    length [n] is the merge of the default entry (content-type:
    application/json), the descriptor's [reply.headers], the computed
    content-length and [reply.headersOverrides], a later operand winning
    over an earlier one on a common key, from which the keys whose value
    is [null] are dropped; every other entry, an [undefined] one included,
    is sent. This holds for the handler as registered and after any
    responses it has sent. *)
Lemma header_precedence (d : descriptor) (h : handler) (i : nat) (req : request)
    (content : value) (n : Z) :
  settled (registered d) h →
  EvBody i content ∈ (respond i h req).2 →
  content_length content = Some n →
  let r := default empty_reply (d_reply d) in
  let merged :=
    extend (extend (extend {[ "content-type" := VStr "application/json" ]}
                           (default ∅ (d_headers r)))
                   {[ "content-length" := VNum n ]})
           (default ∅ (d_headersOverrides r)) in
  no_numeric_length merged →
  ∃ st ops sent,
    written (respond i h req).2 = WriteHead st sent :: ops
    ∧ (∀ k, merged !! k
            = match default ∅ (d_headersOverrides r) !! k with
              | Some v => Some v
              | None =>
                  if decide (k = "content-length") then Some (VNum n)
                  else match default ∅ (d_headers r) !! k with
                       | Some v => Some v
                       | None => if decide (k = "content-type")
                                 then Some (VStr "application/json") else None
                       end
              end)
    ∧ (∀ k, sent !! k = match merged !! k with
                        | Some VNull => None
                        | other => other
                        end)
    ∧ (∀ k, merged !! k = Some VUndefined → sent !! k = Some VUndefined).
Proof.
  intros Hs Hin Hlen r merged Hd.
  destruct (respond_written i h req content n Hin Hlen) as (st & _ & W & _).
  assert (Hm : merged_headers h n = merged).
  { destruct Hs as [->|[m ->]]; [|rewrite merged_headers_absorb];
      subst merged r; destruct d as [w o f [[sd bd [hd|] [ov|]]|] dl]; reflexivity. }
  rewrite Hm in W.
  assert (Hsent : ∀ k, headersToSend merged !! k
                       = match merged !! k with Some VNull => None | other => other end)
    by (intros k; apply headersToSend_lookup, Hd).
  eexists st, _, (headersToSend merged). split_and!.
  - exact W.
  - intros k. subst merged. rewrite !extend_lookup.
    destruct (default ∅ (d_headersOverrides r) !! k) as [v|]; [reflexivity|].
    destruct (decide (k = "content-length")) as [->|Hk].
    { rewrite lookup_singleton_eq. reflexivity. }
    rewrite lookup_singleton_ne by congruence.
    destruct (default ∅ (d_headers r) !! k) as [v|]; [reflexivity|].
    destruct (decide (k = "content-type")) as [->|Hk'].
    { rewrite lookup_singleton_eq. reflexivity. }
    rewrite lookup_singleton_ne by congruence. reflexivity.
  - exact Hsent.
  - intros k Hk. rewrite Hsent, Hk. reflexivity.
Qed.

(** C3. The header precedence law does not hold for every handler: when
    the merged header object has a numeric [length], here [reply.headers]
    being [{ length: 1 }], what is sent is not the merge without its
    [null] entries (content-type, length and content-length) but the
    entries found under the indices below that length, here the single
    entry ["0"] with the value [undefined]. *)
Theorem length_header_is_sent_by_index :
  let s := Sample.with_handlers [Sample.lengthy] in
  let merged : gmap string value :=
    extend (extend (extend {[ "content-type" := VStr "application/json" ]}
                           {[ "length" := VNum 1 ]})
                   {[ "content-length" := VNum 3 ]})
           ∅ in
  written (connectApp Sample.url_parse Sample.form_parse s (Sample.get "/len")).2
  = [ WriteHead (VNum 200) {[ "0" := VUndefined ]};
      Write (VStr "abc") (Some "utf8"); End None ]
  ∧ filter (λ kv, not_null kv.2) merged
    = {[ "content-type" := VStr "application/json"; "length" := VNum 1;
         "content-length" := VNum 3 ]}
  ∧ filter (λ kv, not_null kv.2) merged ≠ {[ "0" := VUndefined ]}.
Proof.
  intros s merged. split_and!.
  - vm_compute. reflexivity.
  - vm_compute. reflexivity.
  - intros H. apply (f_equal (λ m : gmap string value, m !! "content-type")) in H.
    vm_compute in H. discriminate H.
Qed.

(** ** What serving leaves in the table *)

Lemma answered_app (i : nat) (t1 t2 : list event) :
  answered i (t1 ++ t2)
  = match answered i t2 with Some n => Some n | None => answered i t1 end.
Proof. unfold answered. rewrite omap_app, last_app. reflexivity. Qed.

Lemma answered_none (i : nat) (t : list event) :
  Forall (λ e, ∀ j content, e ≠ EvBody j content) t → answered i t = None.
Proof.
  unfold answered. induction 1 as [|e t He _ IH]; [reflexivity|].
  destruct e; cbn; try exact IH. exfalso. exact (He _ _ eq_refl).
Qed.

Lemma after_answer_twice (h : handler) (a1 a2 : option Z) :
  after_answer (after_answer h a1) a2
  = after_answer h (match a2 with Some n => Some n | None => a1 end).
Proof.
  destruct a2 as [n|]; [|reflexivity]. destruct a1 as [m|]; [|reflexivity].
  cbn. rewrite merged_headers_absorb. reflexivity.
Qed.

(** The selected handler is left with the length it computed, if it sent
    a response; its reply says nothing about the other handlers. *)
Lemma respond_answer (j : nat) (h : handler) (req : request) :
  (respond j h req).1 = after_answer h (answered j (respond j h req).2)
  ∧ ∀ i, i ≠ j → answered i (respond j h req).2 = None.
Proof.
  destruct (respond_shape j h req) as [[-> _]|(bc & c & sc & st & Hbc & Hsc & ->)].
  - split; [reflexivity|]. intros i _. reflexivity.
  - cbn [fst snd].
    assert (Hbcn : ∀ i, answered i bc = None)
      by (intros i; destruct Hbc as [->| ->]; reflexivity).
    assert (Htail : ∀ i, answered i (sc ++ EvStatus j st :: (send h req c st).2) = None).
    { intros i. apply answered_none. apply Forall_app. split.
      - destruct Hsc as [->| ->]; repeat constructor; discriminate.
      - constructor; [discriminate|].
        destruct (send_shape h req c st) as [[_ ->]|(n & _ & ->)];
          repeat constructor; discriminate. }
    assert (Hall : ∀ i, answered i (bc ++ EvBody j c :: sc ++ EvStatus j st
                                       :: (send h req c st).2)
                        = if decide (j = i) then content_length c else None).
    { intros i. rewrite answered_app.
      change (EvBody j c :: sc ++ EvStatus j st :: (send h req c st).2)
        with ([EvBody j c] ++ (sc ++ EvStatus j st :: (send h req c st).2)).
      rewrite answered_app, Htail, Hbcn. unfold answered. cbn.
      destruct (decide (j = i)); [|reflexivity]. destruct (content_length c); reflexivity. }
    split.
    + rewrite Hall. rewrite decide_True by reflexivity.
      destruct (send_shape h req c st) as [[-> ->]|(n & -> & ->)]; reflexivity.
    + intros i Hne. rewrite Hall. rewrite decide_False by congruence. reflexivity.
Qed.

(** Among handlers one of which matches, one is the first to match. *)
Lemma first_match_exists (url_parse : string → url_parts) (hs : list handler)
    (req : request) :
  Exists (λ h, matches url_parse h req = true) hs →
  ∃ i h, hs !! i = Some h
         ∧ matches url_parse h req = true
         ∧ ∀ k hk, (k < i)%nat → hs !! k = Some hk → matches url_parse hk req = false.
Proof.
  induction hs as [|h0 hs IH]; intros Hex; [by apply Exists_nil in Hex|].
  destruct (matches url_parse h0 req) eqn:Hm0.
  - exists 0%nat, h0. split_and!; [reflexivity|exact Hm0|]. intros k hk Hk. lia.
  - apply Exists_cons in Hex as [Hex|Hex]; [congruence|].
    destruct (IH Hex) as (i & h & Hi & Hm & Hbefore).
    exists (S i), h. split_and!; [exact Hi|exact Hm|].
    intros [|k] hk Hk Hlk.
    + cbn in Hlk. injection Hlk as <-. exact Hm0.
    + cbn in Hlk. apply (Hbefore k hk); [lia|exact Hlk].
Qed.

Lemma match_or_not (url_parse : string → url_parts) (hs : list handler) (req : request) :
  Forall (λ h, matches url_parse h req = false) hs
  ∨ Exists (λ h, matches url_parse h req = true) hs.
Proof.
  induction hs as [|h hs [IH|IH]].
  - left. constructor.
  - destruct (matches url_parse h req) eqn:E.
    + right. left. exact E.
    + left. constructor; assumption.
  - right. right. exact IH.
Qed.

(** After a request every table entry is as it was, but for the handler
    that sent a response, left with the length it computed. *)
Lemma connectApp_handlers (url_parse : string → url_parts)
    (form_parse : request → option (gmap string (list string) * gmap string (list string)))
    (s : server) (req : request) :
  srv_handlers (connectApp url_parse form_parse s req).1
  = imap (λ i h, after_answer h
                   (answered i (connectApp url_parse form_parse s req).2))
         (srv_handlers s).
Proof.
  rewrite connectApp_unfold. cbn [fst snd srv_handlers set_handlers].
  set (req' := _multipart form_parse req (λ r, r)).
  destruct (match_or_not url_parse (srv_handlers s) req') as [Hno|Hex].
  - destruct (each_handler_no_match url_parse _ _ Hno) as (E1 & E2 & Ft).
    rewrite E1, E2. cbn [negb].
    apply list_eq. intros i. rewrite list_lookup_imap.
    rewrite answered_none; [destruct (srv_handlers s !! i); reflexivity|].
    apply Forall_app. split.
    + eapply Forall_impl; [exact Ft|]. intros e (k & -> & _) j c. discriminate.
    + repeat constructor; discriminate.
  - destruct (first_match_exists url_parse _ _ Hex) as (j & h & Hj & Hm & Hbefore).
    destruct (each_handler_first_match url_parse _ _ j h Hj Hm Hbefore)
      as (pre & Ft & E1 & E2 & E4).
    rewrite E1, E2, E4. cbn [negb]. rewrite (right_id_L [] (++)).
    destruct (respond_answer j h (set_url url_parse req')) as [Hself Hother].
    assert (Hpre : ∀ i, answered i pre = None).
    { intros i. apply answered_none. eapply Forall_impl; [exact Ft|].
      intros e (k & -> & _) j' c. discriminate. }
    apply list_eq. intros i. rewrite list_lookup_imap, answered_app, Hpre.
    destruct (decide (i = j)) as [->|Hne].
    + rewrite list_lookup_insert_eq by (eapply lookup_lt_Some; exact Hj).
      rewrite Hj, Hself. cbn. destruct (answered j _); reflexivity.
    + rewrite list_lookup_insert_ne by congruence.
      rewrite (Hother i Hne). destruct (srv_handlers s !! i); reflexivity.
Qed.

Lemma serve_cons (url_parse : string → url_parts)
    (form_parse : request → option (gmap string (list string) * gmap string (list string)))
    (s : server) (req : request) (reqs : list request) :
  serve url_parse form_parse s (req :: reqs)
  = ((serve url_parse form_parse (connectApp url_parse form_parse s req).1 reqs).1,
     (connectApp url_parse form_parse s req).2
     :: (serve url_parse form_parse (connectApp url_parse form_parse s req).1 reqs).2).
Proof.
  cbn [serve]. destruct (connectApp url_parse form_parse s req) as [s1 t].
  cbn [fst snd]. destruct (serve url_parse form_parse s1 reqs) as [s2 ts]. reflexivity.
Qed.

Lemma serve_handlers (url_parse : string → url_parts)
    (form_parse : request → option (gmap string (list string) * gmap string (list string)))
    (reqs : list request) (s : server) :
  srv_handlers (serve url_parse form_parse s reqs).1
  = imap (λ i h, after_answer h
                   (answered i (List.concat (serve url_parse form_parse s reqs).2)))
         (srv_handlers s).
Proof.
  revert s. induction reqs as [|req reqs IH]; intros s.
  - cbn. apply list_eq. intros i. rewrite list_lookup_imap.
    destruct (srv_handlers s !! i); reflexivity.
  - rewrite serve_cons. cbn [fst snd List.concat]. rewrite IH, connectApp_handlers.
    apply list_eq. intros i. rewrite !list_lookup_imap.
    destruct (srv_handlers s !! i) as [h|]; [|reflexivity]. cbn.
    rewrite after_answer_twice, answered_app. reflexivity.
Qed.

(** C4. Serving requests never adds, removes or reorders table entries
    and leaves every entry's [when], [on], [filter], [reply.status],
    [reply.body], [reply.headersOverrides] and [delay] as they were; the
    [reply.headers] of a handler that sent no response is as it was, and
    that of a handler that sent one is the mapping it had, merged in place
    with the content-length it computed for the last response it sent and
    with [headersOverrides]. Nothing else of the instance changes, and
    any request is answered after those requests exactly as it would have
    been before them. *)
Theorem dispatch_only_merges_headers (url_parse : string → url_parts)
    (form_parse : request → option (gmap string (list string) * gmap string (list string)))
    (s : server) (reqs : list request) :
  let s' := (serve url_parse form_parse s reqs).1 in
  let traces := (serve url_parse form_parse s reqs).2 in
  srv_handlers s'
  = imap (λ i h,
            match answered i (List.concat traces) with
            | None => h
            | Some n =>
                set_headers (extend (extend (r_headers (h_reply h))
                                            {[ "content-length" := VNum n ]})
                                    (default ∅ (r_headersOverrides (h_reply h)))) h
            end)
         (srv_handlers s)
  ∧ Forall2 (λ h h',
               h_when h' = h_when h ∧ h_on h' = h_on h ∧ h_filter h' = h_filter h
               ∧ r_status (h_reply h') = r_status (h_reply h)
               ∧ r_body (h_reply h') = r_body (h_reply h)
               ∧ r_headersOverrides (h_reply h') = r_headersOverrides (h_reply h)
               ∧ h_delay h' = h_delay h)
            (srv_handlers s) (srv_handlers s')
  ∧ set_handlers (srv_handlers s) s' = s
  ∧ ∀ req, (connectApp url_parse form_parse s' req).2
           = (connectApp url_parse form_parse s req).2.
Proof.
  intros s' traces.
  destruct (serve_settled url_parse form_parse reqs s s (same_but_headers_refl s))
    as [Hall Hrest].
  fold s' in Hall, Hrest. split_and!.
  - subst s' traces. rewrite serve_handlers. apply imap_ext. intros i h _.
    destruct (answered i _); reflexivity.
  - eapply Forall2_impl; [exact Hall|]. intros h h' [->|[n ->]]; cbn;
      split_and!; reflexivity.
  - exact Hrest.
  - intros req. apply connectApp_settled. split; assumption.
Qed.

(** ** The properties at work on the sample data *)

Lemma first_match_wins_witness :
  let hs := srv_handlers
              (Sample.with_handlers [Sample.ping_filtered; Sample.ping; Sample.ping_any]) in
  let req := Sample.get "/ping?x=1" in
  let hi := registered Sample.ping in
  let hj := registered Sample.ping_any in
  (hs !! 1%nat = Some hi ∧ hs !! 2%nat = Some hj
   ∧ matches Sample.url_parse hi req = true ∧ matches Sample.url_parse hj req = true)
  ∧ written (_handleMockedRequest Sample.url_parse hs req _handleDefaultRequest).2
    = written (respond 1 hi (set_url Sample.url_parse req)).2
  ∧ ∀ e k, e ∈ (_handleMockedRequest Sample.url_parse hs req _handleDefaultRequest).2 →
           about e = Some k → (k ≤ 1)%nat.
Proof.
  intros hs req hi hj.
  assert (H1 : hs !! 1%nat = Some hi) by reflexivity.
  assert (H2 : hs !! 2%nat = Some hj) by reflexivity.
  assert (H3 : matches Sample.url_parse hi req = true) by reflexivity.
  assert (H4 : matches Sample.url_parse hj req = true) by reflexivity.
  assert (H5 : ∀ k hk, (k < 1)%nat → hs !! k = Some hk →
                       matches Sample.url_parse hk req = false).
  { intros k hk Hk. destruct k as [|k]; [|lia]. intros [= <-]. reflexivity. }
  split; [auto|].
  pose proof (first_match_wins Sample.url_parse hs req _handleDefaultRequest
                1 2 hi hj H1 H2 (le_n 2) H3 H4 H5) as (W & _ & A & _).
  split; [exact W|exact A].
Defined.

Lemma no_match_gives_404_witness :
  let s := Sample.with_handlers [Sample.ping] in
  let req := Sample.head "/ping" in
  Forall (λ h, matches Sample.url_parse h
                 (_multipart Sample.form_parse req (λ r, r)) = false)
         (srv_handlers s)
  ∧ response_of (written (connectApp Sample.url_parse Sample.form_parse s req).2)
    = Some {| status := VNum 404;
              headers := {[ "content-type" := VStr "plain/text";
                            "content-length" := VNum 9 ]};
              body := [VStr "Not Found"] |}.
Proof.
  intros s req.
  assert (H : Forall (λ h, matches Sample.url_parse h
                             (_multipart Sample.form_parse req (λ r, r)) = false)
                     (srv_handlers s)).
  { repeat constructor. }
  split; [exact H|].
  exact (proj1 (proj2 (no_match_gives_404 Sample.url_parse Sample.form_parse s req H))).
Defined.

Lemma filter_must_return_true_witness :
  let h := registered Sample.ping_filtered in
  let req := Sample.get "/ping" in
  let rest := [registered Sample.ping] in
  h_filter h = Some (Sample.returns (VNum 1))
  ∧ truthy (fn_return (Sample.returns (VNum 1)) (set_url Sample.url_parse req)) = true
  ∧ matches Sample.url_parse h req = false
  ∧ sc_handlers (each_handler Sample.url_parse 0 (h :: rest) false req)
    = h :: sc_handlers (each_handler Sample.url_parse 1 rest false
                          (set_url Sample.url_parse req)).
Proof.
  intros h req rest.
  assert (Hf : h_filter h = Some (Sample.returns (VNum 1))) by reflexivity.
  assert (Hne : fn_return (Sample.returns (VNum 1)) (set_url Sample.url_parse req)
                ≠ VBool true) by discriminate.
  split; [exact Hf|]. split; [reflexivity|].
  destruct (filter_must_return_true Sample.url_parse h (Sample.returns (VNum 1))
              req 0 rest Hf) as [_ Hskip].
  destruct (Hskip Hne) as (Hm & Hhs & _).
  split; [exact Hm|exact Hhs].
Defined.


Lemma header_precedence_witness :
  let h := registered Sample.gone in
  let req := Sample.get "/gone" in
  (settled (registered Sample.gone) h
   ∧ EvBody 0 (VStr "") ∈ (respond 0 h req).2
   ∧ content_length (VStr "") = Some 0)
  ∧ ∃ st ops sent,
      written (respond 0 h req).2 = WriteHead st sent :: ops
      ∧ sent !! "content-type" = None
      ∧ sent !! "x-a" = Some VUndefined
      ∧ sent !! "content-length" = Some (VNum 0).
Proof.
  intros h req.
  assert (H1 : settled (registered Sample.gone) h) by apply settled_refl.
  assert (H2 : EvBody 0 (VStr "") ∈ (respond 0 h req).2) by constructor.
  assert (H3 : content_length (VStr "") = Some 0) by reflexivity.
  split; [auto|].
  assert (H4 : no_numeric_length
                 (extend (extend (extend {[ "content-type" := VStr "application/json" ]}
                                         {[ "content-type" := VNull; "x-a" := VUndefined ]})
                                 {[ "content-length" := VNum 0 ]})
                         {[ "content-length" := VNum 0 ]})).
  { intros m E. vm_compute in E. discriminate E. }
  destruct (header_precedence Sample.gone h 0 req (VStr "") 0 H1 H2 H3 H4)
    as (st & ops & sent & W & _ & S & _).
  exists st, ops, sent. split; [exact W|].
  rewrite !S. split_and!; reflexivity.
Defined.

(** Serving one request changes the table entry of the handler that
    answered: its header object now carries the content-length. *)
Lemma dispatch_changes_the_table :
  srv_handlers
    (connectApp Sample.url_parse Sample.form_parse
       (Sample.with_handlers [Sample.ping]) (Sample.get "/ping")).1
  ≠ srv_handlers (Sample.with_handlers [Sample.ping]).
Proof.
  intros H.
  apply (f_equal (λ hs, h ← hs !! 0%nat; r_headers (h_reply h) !! "content-length")) in H.
  vm_compute in H. discriminate H.
Qed.

(** Scenario A: [{ on: "/ping", reply: { body: "pong" } }], GET /ping. *)
Example scenario_ping :
  response_of (written (connectApp Sample.url_parse Sample.form_parse
                          (Sample.with_handlers [Sample.ping]) (Sample.get "/ping")).2)
  = Some {| status := VNum 200;
            headers := {[ "content-type" := VStr "application/json";
                          "content-length" := VNum 4 ]};
            body := [VStr "pong"] |}.
Proof. vm_compute. reflexivity. Qed.

(** Scenario B: [{ on: "/echo", when: "POST", reply: { body: function (req)
    { return req.body.name; } } }], POST /echo with the form field
    [name=Ada]. *)
Example scenario_echo :
  let echo :=
    {| d_when := Some "POST"; d_on := Some "/echo"; d_filter := None;
       d_reply :=
         Some {| d_status := None;
                 d_body := Some (Fn {| fn_length := 1;
                                       fn_return := λ req,
                                         match req_body req ≫= (.!! "name") with
                                         | Some (Single v) => VStr v
                                         | _ => VUndefined
                                         end;
                                       fn_send := λ _, None |});
                 d_headers := None; d_headersOverrides := None |};
       d_delay := None |} in
  let post :=
    {| req_method := "POST"; req_url := "/echo";
       req_headers := {[ "content-type" := "multipart/form-data; boundary=x" ]};
       req_body := None; req_files := None;
       req_pathname := None; req_query := None |} in
  body <$> response_of (written (connectApp Sample.url_parse Sample.form_parse
                                   (Sample.with_handlers [echo]) post).2)
  = Some [VStr "Ada"].
Proof. vm_compute. reflexivity. Qed.

(** Scenario D: [{ on: "/gone", reply: { headers: { "content-type": null } } }]
    (here with an [undefined] entry and an overridden content-length as
    well): the response has no content-type. *)
Example scenario_gone :
  (λ r, (headers r !! "content-type", headers r !! "x-a", headers r !! "content-length"))
    <$> response_of (written (connectApp Sample.url_parse Sample.form_parse
                                (Sample.with_handlers [Sample.gone])
                                (Sample.get "/gone")).2)
  = Some (None, Some VUndefined, Some (VNum 0)).
Proof. vm_compute. reflexivity. Qed.

(** A whole life: start, a connection, stop, the listener closes, the
    connection closes; the callback of [stop] runs last, on an instance
    with no listener, no handler and no connection. *)
Example life_cycle :
  let s0 := Sample.with_handlers [Sample.ping] in
  let '(s1, e1) := start 1 s0 in
  let '(s2, e2) := react Listening s1 in
  let '(s3, e3) := react (Connection 5) s2 in
  let '(s4, e4) := stop 2 s3 in
  let '(s5, e5) := react Closed s4 in
  let '(s6, e6) := react (ConnectionClosed 5) s5 in
  [e1; e2; e3; e4; e5; e6]
  = [[Listen false 8080 "localhost"]; [Callback 1%nat]; []; [CloseListener];
     [EndConnection 5]; [Callback 2%nat]]
  ∧ s6 = Sample.fresh.
Proof. vm_compute. split; reflexivity. Qed.

(** * Further properties *)

(** ** The multipart middleware *)

Section Multipart_facts.

Variable url_parse : string -> url_parts.
Variable form_parse :
  request -> option (gmap string (list string) * gmap string (list string)).

(** The two tests [_multipart] makes before it decodes anything. *)
Lemma _multipart_decodes {R} (req : request) (next : request → R) :
  req_method req = "POST" ∨ req_method req = "PUT" →
  before_semicolon (default "" (req_headers req !! "content-type"))
  = "multipart/form-data" →
  _multipart form_parse req next
  = match form_parse req with
    | None => next (set_form ∅ ∅ req)
    | Some (fields, files) =>
        next (set_form (collapse <$> fields) (collapse <$> files) req)
    end.
Proof.
  intros Hm Hct. unfold _multipart. rewrite Hct. cbn.
  destruct Hm as [-> | ->]; reflexivity.
Qed.

(** X1. A request that is neither POST nor PUT, or whose content-type
    (up to the first semicolon) is not multipart/form-data, goes on to the
    next middleware as it came, whatever the decoder would make of it. *)
Theorem _multipart_passes_on {R} (req : request) (next : request → R) :
  (req_method req ≠ "POST" ∧ req_method req ≠ "PUT")
  ∨ before_semicolon (default "" (req_headers req !! "content-type"))
    ≠ "multipart/form-data" →
  _multipart form_parse req next = next req.
Proof.
  intros H. unfold _multipart.
  destruct (negb (String.eqb (req_method req) "POST")
            && negb (String.eqb (req_method req) "PUT")) eqn:E1; [reflexivity|].
  destruct (negb (String.eqb "multipart/form-data"
                    (before_semicolon (default "" (req_headers req !! "content-type")))))
    eqn:E2; [reflexivity|].
  exfalso. apply negb_false_iff, String.eqb_eq in E2.
  apply andb_false_iff in E1.
  destruct H as [[H1 H2]|H]; [|congruence].
  destruct E1 as [E|E]; apply negb_false_iff, String.eqb_eq in E; congruence.
Qed.

(** X2. A decoding error is swallowed: the request is handled exactly as
    if the decoder had returned a form with no field and no file. *)
Theorem decode_error_is_empty_form (s : server) (req : request) :
  form_parse req = None →
  connectApp url_parse form_parse s req
  = connectApp url_parse (λ _, Some (∅, ∅)) s req.
Proof.
  intros Herr. unfold connectApp, _multipart. rewrite Herr.
  rewrite !fmap_empty. reflexivity.
Qed.

(** X3. For a POST or PUT whose content-type is multipart/form-data,
    alone or followed by parameters, the decoded form is attached to the
    request: a name decoded to exactly one value holds that value, a name
    decoded to any other number of values holds the array unchanged, and
    a name the decoder did not produce is absent; the same for files. *)
Theorem decoded_fields_collapse (req : request)
    (fields files : gmap string (list string)) (name : string) :
  req_method req = "POST" ∨ req_method req = "PUT" →
  (req_headers req !! "content-type" = Some "multipart/form-data"
   ∨ ∃ params, req_headers req !! "content-type"
               = Some (String.append "multipart/form-data;" params)) →
  form_parse req = Some (fields, files) →
  let req' := _multipart form_parse req (λ r, r) in
  let collapsed (decoded : gmap string (list string)) :=
    match decoded !! name with
    | Some [v] => Some (Single v)
    | Some vs => Some (Multi vs)
    | None => None
    end in
  req_body req' ≫= (.!! name) = collapsed fields
  ∧ req_files req' ≫= (.!! name) = collapsed files.
Proof.
  intros Hm Hct Hparse req' collapsed. subst req'.
  rewrite _multipart_decodes; [|exact Hm|].
  - rewrite Hparse. subst collapsed. cbn. rewrite !lookup_fmap.
    split.
    + destruct (fields !! name) as [[|v [|w vs]]|]; reflexivity.
    + destruct (files !! name) as [[|v [|w vs]]|]; reflexivity.
  - destruct Hct as [-> |[params ->]]; reflexivity.
Qed.

(** X4. Decoding leaves the method, the URL and the headers of the
    request alone, so a handler without filter matches the decoded request
    exactly when it matches the request as received. *)
Theorem _multipart_keeps_routing (req : request) (h : handler) :
  let req' := _multipart form_parse req (λ r, r) in
  req_method req' = req_method req
  ∧ req_url req' = req_url req
  ∧ req_headers req' = req_headers req
  ∧ (h_filter h = None → matches url_parse h req' = matches url_parse h req).
Proof.
  intros req'.
  assert (H : req' = req ∨ ∃ b f, req' = set_form b f req).
  { subst req'. unfold _multipart.
    destruct (negb _ && negb _); [auto|]. destruct (negb _); [auto|].
    destruct (form_parse req) as [[fields files]|]; eauto. }
  destruct H as [-> |(b & f & ->)]; [auto|].
  split_and!; try reflexivity. intros Hf. unfold matches. rewrite Hf. reflexivity.
Qed.

End Multipart_facts.

Lemma _multipart_passes_on_witness :
  ((req_method (Sample.get "/ping") ≠ "POST" ∧ req_method (Sample.get "/ping") ≠ "PUT")
   ∨ before_semicolon (default "" (req_headers (Sample.get "/ping") !! "content-type"))
     ≠ "multipart/form-data")
  ∧ _multipart Sample.form_parse (Sample.get "/ping") (λ r, req_body r) = None.
Proof.
  assert (H : (req_method (Sample.get "/ping") ≠ "POST"
               ∧ req_method (Sample.get "/ping") ≠ "PUT")
              ∨ before_semicolon
                  (default "" (req_headers (Sample.get "/ping") !! "content-type"))
                ≠ "multipart/form-data").
  { left. split; discriminate. }
  split; [exact H|].
  exact (_multipart_passes_on Sample.form_parse (Sample.get "/ping") (λ r, req_body r) H).
Defined.

Lemma decode_error_is_empty_form_witness :
  (λ _ : request, @None (gmap string (list string) * gmap string (list string)))
    (Sample.post_form "/echo") = None
  ∧ connectApp Sample.url_parse (λ _, None) Sample.fresh (Sample.post_form "/echo")
    = connectApp Sample.url_parse (λ _, Some (∅, ∅)) Sample.fresh (Sample.post_form "/echo").
Proof.
  split; [reflexivity|].
  exact (decode_error_is_empty_form Sample.url_parse (λ _, None) Sample.fresh
           (Sample.post_form "/echo") eq_refl).
Defined.

Lemma decoded_fields_collapse_witness :
  let req := Sample.post_form "/echo" in
  (req_method req = "POST" ∨ req_method req = "PUT")
  ∧ req_body (_multipart Sample.form_parse_tags req (λ r, r)) ≫= (.!! "name")
    = Some (Single "Ada")
  ∧ req_body (_multipart Sample.form_parse_tags req (λ r, r)) ≫= (.!! "tags")
    = Some (Multi ["a"; "b"]).
Proof.
  intros req.
  assert (Hm : req_method req = "POST" ∨ req_method req = "PUT") by (left; reflexivity).
  assert (Hct : req_headers req !! "content-type" = Some "multipart/form-data"
                ∨ ∃ params, req_headers req !! "content-type"
                            = Some (String.append "multipart/form-data;" params)).
  { right. exists " boundary=x". reflexivity. }
  split; [exact Hm|]. split.
  - exact (proj1 (decoded_fields_collapse Sample.form_parse_tags req _ _ "name"
                    Hm Hct eq_refl)).
  - exact (proj1 (decoded_fields_collapse Sample.form_parse_tags req _ _ "tags"
                    Hm Hct eq_refl)).
Defined.

(** ** More on dispatch *)

(** [String.prototype.toUpperCase] leaves the wildcard alone and never
    produces it. *)
Lemma upper_ascii_star (c : ascii) : upper_ascii c = "*"%char → c = "*"%char.
Proof.
  destruct c as [[] [] [] [] [] [] [] []]; vm_compute; intros H;
    first [reflexivity | discriminate H].
Qed.

Lemma toUpperCase_star (w : string) : toUpperCase w = "*" ↔ w = "*".
Proof.
  split; [|intros ->; reflexivity].
  destruct w as [|c [|c' rest]]; cbn; intros H; try discriminate H.
  injection H as H. apply upper_ascii_star in H. subst c. reflexivity.
Qed.

Lemma respond_no_immediate (i : nat) (h : handler) (req : request) :
  Forall (λ e, ∀ op, e ≠ EvRes op) (respond i h req).2.
Proof.
  destruct (respond_shape i h req) as [[-> _]|(bc & c & sc & st & Hbc & Hsc & ->)]; cbn.
  - repeat constructor; discriminate.
  - apply Forall_app. split.
    { destruct Hbc as [->| ->]; repeat constructor; discriminate. }
    constructor; [discriminate|]. apply Forall_app. split.
    { destruct Hsc as [->| ->]; repeat constructor; discriminate. }
    constructor; [discriminate|].
    destruct (send_shape h req c st) as [[_ ->]|(n & _ & ->)];
      repeat constructor; discriminate.
Qed.

(** What a handler's reply puts on the wire: nothing, or one timer that
    writes the head, the body unless the method is HEAD, and the end. *)
Lemma respond_outcome (i : nat) (h : handler) (req : request) :
  written (respond i h req).2 = []
  ∨ ∃ st hs ops,
      EvTimeout (default 0 (h_delay h)) (WriteHead st hs :: ops) ∈ (respond i h req).2
      ∧ written (respond i h req).2 = WriteHead st hs :: ops
      ∧ (ops = [End None] ∨ ∃ c enc, ops = [Write c enc; End None]).
Proof.
  destruct (respond_shape i h req) as [[-> _]|(bc & c & sc & st & Hbc & Hsc & ->)]; cbn.
  - left. reflexivity.
  - destruct (send_shape h req c st) as [[_ ->]|(n & _ & ->)]; cbn.
    + left. destruct Hbc as [->| ->], Hsc as [->| ->]; reflexivity.
    + right. eexists st, _, _. split_and!.
      * rewrite elem_of_app, elem_of_cons, elem_of_app, !elem_of_cons. eauto 10.
      * destruct Hbc as [->| ->], Hsc as [->| ->]; cbn; rewrite (right_id_L [] (++));
          reflexivity.
      * destruct (negb _); cbn; eauto.
Qed.

Section Dispatch_more.

Variable url_parse : string -> url_parts.
Variable form_parse :
  request -> option (gmap string (list string) * gmap string (list string)).

(** X5. A request that some registered handler matches is never answered
    by the default responder and nothing is written before the timer of
    the selected handler fires: either nothing at all is written (its body
    never resolved, or had no length), or exactly one response is, made of
    the head, at most one body chunk, and the end. *)
Theorem matched_request_gets_one_response (s : server) (req : request) :
  Exists (λ h, matches url_parse h (_multipart form_parse req (λ r, r)) = true)
         (srv_handlers s) →
  let t := (connectApp url_parse form_parse s req).2 in
  Forall (λ e, ∀ op, e ≠ EvRes op) t
  ∧ (written t = []
     ∨ ∃ st hs ops,
         written t = WriteHead st hs :: ops
         ∧ (ops = [End None] ∨ ∃ c enc, ops = [Write c enc; End None])).
Proof.
  intros Hex t. subst t.
  destruct (first_match_exists url_parse _ _ Hex) as (i & h & Hi & Hm & Hbefore).
  rewrite connectApp_unfold.
  destruct (each_handler_first_match url_parse _ _ i h Hi Hm Hbefore)
    as (pre & Ft & _ & E2 & E4).
  cbn. rewrite E2, E4. cbn. rewrite (right_id_L [] (++)). split.
  - apply Forall_app. split; [|apply respond_no_immediate].
    eapply Forall_impl; [exact Ft|]. intros e (k & -> & _) op. discriminate.
  - rewrite written_app, (written_filter_calls _ _ Ft). cbn.
    destruct (respond_outcome i h
                (set_url url_parse (_multipart form_parse req (λ r, r))))
      as [->|(st & hs & ops & _ & -> & Hops)]; [left; reflexivity|].
    right. exists st, hs, ops. split; [reflexivity|exact Hops].
Qed.

(** X6. When the body function of the selected handler takes a
    continuation and never calls it, the request is left without any
    response: no timer is set, the default responder does not step in,
    and the server is as before. *)
Theorem unresolved_body_leaves_request_unanswered (s : server) (req : request)
    (i : nat) (h : handler) (f : jsfun) :
  let req' := _multipart form_parse req (λ r, r) in
  srv_handlers s !! i = Some h →
  matches url_parse h req' = true →
  (∀ k hk, (k < i)%nat → srv_handlers s !! k = Some hk →
           matches url_parse hk req' = false) →
  r_body (h_reply h) = Fn f →
  (2 ≤ fn_length f)%nat →
  fn_send f (set_url url_parse req') = None →
  written (connectApp url_parse form_parse s req).2 = []
  ∧ Forall (λ e, ∀ ms ops, e ≠ EvTimeout ms ops) (connectApp url_parse form_parse s req).2
  ∧ (connectApp url_parse form_parse s req).1 = s.
Proof.
  intros req' Hi Hm Hbefore Hb Hlen Hsend.
  assert (Hr : respond i h (set_url url_parse req') = (h, [EvBodyCall i])).
  { unfold respond, _getResponseBody, log. rewrite Hb, Hsend.
    destruct (fn_length f <=? 1)%nat eqn:E; [apply Nat.leb_le in E; lia|reflexivity]. }
  rewrite connectApp_unfold. fold req'.
  destruct (each_handler_first_match url_parse _ req' i h Hi Hm Hbefore)
    as (pre & Ft & E1 & E2 & E4).
  cbn. rewrite E1, E2, E4, Hr. cbn. rewrite (right_id_L [] (++)). split_and!.
  - rewrite written_app, (written_filter_calls _ _ Ft). reflexivity.
  - apply Forall_app. split.
    + eapply Forall_impl; [exact Ft|]. intros e (k & -> & _) ms ops. discriminate.
    + repeat constructor. discriminate.
  - rewrite list_insert_id by exact Hi. destruct s; reflexivity.
Qed.

(** X7. The method of a handler is compared without regard to case: two
    handlers whose [when] differ only by the case of their letters, and
    which agree on [on] and [filter], match the same requests. *)
Theorem when_is_case_insensitive (h1 h2 : handler) (req : request) :
  toUpperCase (h_when h1) = toUpperCase (h_when h2) →
  h_on h1 = h_on h2 →
  h_filter h1 = h_filter h2 →
  matches url_parse h1 req = matches url_parse h2 req.
Proof.
  intros Hw Ho Hf. unfold matches, method_differs, path_differs.
  rewrite Hw, Ho, Hf.
  assert (Hstar : String.eqb (h_when h1) "*" = String.eqb (h_when h2) "*").
  { destruct (String.eqb_spec (h_when h1) "*") as [E1|E1];
      destruct (String.eqb_spec (h_when h2) "*") as [E2|E2]; try reflexivity; exfalso.
    - apply E2, toUpperCase_star. rewrite <- Hw. apply toUpperCase_star, E1.
    - apply E1, toUpperCase_star. rewrite Hw. apply toUpperCase_star, E2. }
  rewrite Hstar. reflexivity.
Qed.

(** X8. Served end to end: once a descriptor with only a path and a
    literal string body is registered behind handlers that do not match,
    a GET of that path is answered with status 200, the headers
    content-type: application/json and content-length: the byte length of
    the body, and the body itself. *)
Theorem literal_reply_end_to_end (s : server) (req : request) (p b : string) :
  req_method req = "GET" →
  up_pathname (url_parse (req_url req)) = Some p →
  Forall (λ h, matches url_parse h req = false) (srv_handlers s) →
  let d := {| d_when := None; d_on := Some p; d_filter := None;
              d_reply := Some {| d_status := None; d_body := Some (Lit (VStr b));
                                 d_headers := None; d_headersOverrides := None |};
              d_delay := None |} in
  response_of (written (connectApp url_parse form_parse (will d s).1 req).2)
  = Some {| status := VNum 200;
            headers := {[ "content-type" := VStr "application/json";
                          "content-length" := VNum (Z.of_nat (String.length b)) ]};
            body := [VStr b] |}.
Proof.
  intros Hget Hpath Hnone d.
  assert (Hpass : _multipart form_parse req (λ r, r) = req).
  { unfold _multipart. rewrite Hget. reflexivity. }
  assert (Hm : matches url_parse (registered d) req = true).
  { unfold matches, method_differs, path_differs. cbn. rewrite Hget, Hpath. cbn.
    rewrite String.eqb_refl. reflexivity. }
  destruct (connectApp_first_match url_parse form_parse (will d s).1 req
              (List.length (srv_handlers s)) (registered d)) as [W _].
  - cbn. rewrite lookup_app_r by lia. rewrite Nat.sub_diag. reflexivity.
  - rewrite Hpass. exact Hm.
  - rewrite Hpass. intros k hk Hk Hlk. cbn in Hlk.
    rewrite lookup_app_l in Hlk by exact Hk.
    exact (proj1 (Forall_lookup _ _) Hnone k hk Hlk).
  - rewrite W, Hpass. unfold respond, _getResponseBody, _getResponseStatus, log, send.
    cbn. assert (Hb : js_or (VStr b) (VStr "") = VStr b).
    { unfold js_or. cbn. destruct b; reflexivity. }
    rewrite Hb. cbn. rewrite Hget. cbn. reflexivity.
Qed.

End Dispatch_more.

(** X9. Registrations chain: registering descriptors one after the
    other appends their handlers to the table in that order, behind those
    already there, and touches nothing else of the instance. *)
Theorem will_chains (ds : list descriptor) (s : server) :
  let s' := foldl (λ s d, (will d s).1) s ds in
  srv_handlers s' = srv_handlers s ++ (registered <$> ds)
  ∧ set_handlers (srv_handlers s) s' = s.
Proof.
  revert s. induction ds as [|d ds IH]; intros s; cbn.
  - rewrite (right_id_L [] (++)). split; [reflexivity|destruct s; reflexivity].
  - destruct (IH (will d s).1) as [Hh Hrest]. cbn in Hh, Hrest. split.
    + rewrite Hh. cbn. rewrite <- (assoc_L (++)). reflexivity.
    + apply (f_equal (set_handlers (srv_handlers s))) in Hrest.
      destruct s; cbn in *. destruct (foldl _ _ ds); cbn in *. exact Hrest.
Qed.

(** X10. The whole response of the selected handler is written by one
    timer, set to the handler's [delay], or to 0 when it has none. *)
Theorem response_waits_for_delay (i : nat) (h : handler) (req : request)
    (ms : Z) (ops : list res_op) :
  EvTimeout ms ops ∈ (respond i h req).2 →
  ms = default 0 (h_delay h)
  ∧ written (respond i h req).2 = ops
  ∧ Forall (λ e, ∀ op, e ≠ EvRes op) (respond i h req).2.
Proof.
  intros Hin. split_and!; [| |apply respond_no_immediate].
  - destruct (respond_shape i h req) as [[E _]|(bc & c & sc & st & Hbc & Hsc & E)];
      rewrite E in Hin; cbn in Hin.
    + apply list_elem_of_singleton in Hin. discriminate Hin.
    + rewrite elem_of_app, elem_of_cons, elem_of_app, elem_of_cons in Hin.
      destruct Hin as [Hin|[Hin|[Hin|[Hin|Hin]]]]; try discriminate Hin.
      * destruct Hbc as [->| ->]; [by apply elem_of_nil in Hin|].
        apply list_elem_of_singleton in Hin. discriminate Hin.
      * destruct Hsc as [->| ->]; [by apply elem_of_nil in Hin|].
        apply list_elem_of_singleton in Hin. discriminate Hin.
      * destruct (send_shape h req c st) as [[_ Es]|(n & _ & Es)]; rewrite Es in Hin;
          apply list_elem_of_singleton in Hin; [discriminate Hin|].
        injection Hin as -> _. reflexivity.
  - destruct (respond_shape i h req) as [[E _]|(bc & c & sc & st & Hbc & Hsc & E)];
      rewrite E in Hin |- *; cbn in Hin |- *.
    + apply list_elem_of_singleton in Hin. discriminate Hin.
    + rewrite elem_of_app, elem_of_cons, elem_of_app, elem_of_cons in Hin.
      destruct Hin as [Hin|[Hin|[Hin|[Hin|Hin]]]]; try discriminate Hin.
      * destruct Hbc as [->| ->]; [by apply elem_of_nil in Hin|].
        apply list_elem_of_singleton in Hin. discriminate Hin.
      * destruct Hsc as [->| ->]; [by apply elem_of_nil in Hin|].
        apply list_elem_of_singleton in Hin. discriminate Hin.
      * destruct (send_shape h req c st) as [[_ Es]|(n & _ & Es)]; rewrite Es in Hin |- *;
          apply list_elem_of_singleton in Hin; [discriminate Hin|].
        injection Hin as _ ->.
        destruct Hbc as [->| ->], Hsc as [->| ->]; cbn; rewrite (right_id_L [] (++));
          reflexivity.
Qed.

(** ** The life of an instance *)

Lemma without_elem (x c : nat) (cs : list nat) : x ∈ without c cs ↔ x ∈ cs ∧ x ≠ c.
Proof.
  unfold without. rewrite !list_elem_of_In, filter_In, negb_true_iff, Nat.eqb_neq.
  reflexivity.
Qed.

Lemma without_absent (c : nat) (cs : list nat) : c ∉ cs → without c cs = cs.
Proof.
  induction cs as [|x cs IH]; intros Hc; [reflexivity|].
  apply not_elem_of_cons in Hc as [Hne Hc]. unfold without in *. cbn [List.filter].
  destruct (Nat.eqb_spec x c) as [->|_]; [congruence|]. cbn [negb].
  rewrite IH by exact Hc. reflexivity.
Qed.

Lemma without_twice (c : nat) (cs : list nat) : without c (without c cs) = without c cs.
Proof. apply without_absent. rewrite without_elem. intros [_ H]. congruence. Qed.

Lemma without_NoDup (c : nat) (cs : list nat) : NoDup cs → NoDup (without c cs).
Proof.
  induction 1 as [|x cs Hx Hnd IH]; [constructor|].
  change (without c (x :: cs))
    with (if negb (Nat.eqb x c) then x :: without c cs else without c cs).
  destruct (negb (Nat.eqb x c)); [|exact IH].
  constructor; [|exact IH]. rewrite without_elem. tauto.
Qed.

Lemma remaining_elem (x : nat) (closed cs : list nat) :
  x ∈ remaining cs closed ↔ x ∈ cs ∧ x ∉ closed.
Proof.
  unfold remaining. revert cs. induction closed as [|c closed IH]; intros cs; cbn.
  - rewrite elem_of_nil. tauto.
  - rewrite IH, without_elem, not_elem_of_cons. tauto.
Qed.

(** The ["close"] hooks of one connection, run on an instance that no
    longer tracks it: the callbacks are called if no connection is left. *)
Lemma run_hooks_drained (c : nat) (hooks : list (nat * nat)) (s : server) :
  Forall (λ p, p.1 = c) hooks →
  c ∉ srv_connections s →
  run_hooks (λ p, on_drained p.1 p.2) hooks s
  = (s, if (List.length (srv_connections s) =? 0)%nat
        then Callback ∘ snd <$> hooks else []).
Proof.
  intros Hall Hc. induction Hall as [|[c' cb] hooks Hp Hall IH].
  - cbn. destruct (_ =? _)%nat; reflexivity.
  - cbn in Hp. subst c'. cbn [run_hooks]. unfold on_drained at 1. cbn [fst snd].
    rewrite (without_absent c _ Hc).
    replace (set_connections (srv_connections s) s) with s by (destruct s; reflexivity).
    rewrite IH. destruct (_ =? _)%nat; reflexivity.
Qed.

(** X11. When a connection reports closed, the instance forgets it and
    only it: it is no longer tracked, every other connection is tracked
    exactly as before, handlers and listener are untouched; outside a
    shutdown nothing is called. *)
Theorem closed_connection_is_forgotten (c : nat) (s : server) :
  let s' := (react (ConnectionClosed c) s).1 in
  srv_connections s' = without c (srv_connections s)
  ∧ (c ∉ srv_connections s')
  ∧ (∀ x, x ∈ srv_connections s' ↔ (x ∈ srv_connections s ∧ x ≠ c))
  ∧ srv_handlers s' = srv_handlers s
  ∧ srv_server s' = srv_server s
  ∧ (srv_draining s = [] → (react (ConnectionClosed c) s).2 = []).
Proof.
  intros s'. subst s'. unfold react.
  set (s1 := set_connections (without c (srv_connections s)) s).
  set (mine := List.filter (λ p : nat * nat, Nat.eqb p.1 c) (srv_draining s1)).
  set (others := List.filter _ (srv_draining s1)).
  assert (Hmine : Forall (λ p, p.1 = c) mine).
  { apply Forall_forall. intros p Hp. subst mine.
    apply list_elem_of_In, filter_In in Hp as [_ Hp]. apply Nat.eqb_eq, Hp. }
  assert (Hc : c ∉ srv_connections (set_draining others s1)).
  { cbn. rewrite without_elem. intros [_ H]. congruence. }
  rewrite (run_hooks_drained c mine _ Hmine Hc). cbn [fst snd].
  split_and!; try reflexivity.
  - exact Hc.
  - intros x. apply without_elem.
  - intros Hd. subst mine s1. cbn. rewrite Hd. cbn. destruct (_ =? _)%nat; reflexivity.
Qed.

(** X12. [start] binds a TLS listener exactly when a key and a
    certificate were both given (and are not empty strings), a plain one
    otherwise; it calls nothing back by itself and keeps handlers and
    connections; the callback is called once, when the listener reports
    that it is listening. *)
Theorem start_calls_back_when_listening (callback : nat) (s : server) :
  let secure := given (srv_key s) && given (srv_cert s) in
  (start callback s).2 = [Listen secure (srv_port s) (srv_host s)]
  ∧ (secure = true ↔ ∃ key cert, srv_key s = Some key ∧ srv_cert s = Some cert
                                 ∧ key ≠ "" ∧ cert ≠ "")
  ∧ srv_handlers (start callback s).1 = srv_handlers s
  ∧ srv_connections (start callback s).1 = srv_connections s
  ∧ react Listening (start callback s).1 = ((start callback s).1, [Callback callback]).
Proof.
  intros secure. split_and!; try reflexivity. subst secure.
  unfold given. rewrite andb_true_iff. split.
  - destruct (srv_key s) as [key|], (srv_cert s) as [cert|]; intros [Hk Hc];
      try discriminate.
    exists key, cert. apply negb_true_iff, String.eqb_neq in Hk, Hc. auto.
  - intros (key & cert & -> & -> & Hk & Hc).
    split; apply negb_true_iff, String.eqb_neq; assumption.
Qed.

Lemma connectApp_no_handlers (url_parse : string → url_parts)
    (form_parse : request → option (gmap string (list string) * gmap string (list string)))
    (s : server) (req : request) :
  srv_handlers s = [] →
  written (connectApp url_parse form_parse s req).2
  = [ WriteHead (VNum 404)
        {[ "content-type" := VStr "plain/text"; "content-length" := VNum 9 ]};
      End (Some (VStr "Not Found")) ].
Proof. intros Hs. rewrite connectApp_unfold, Hs. reflexivity. Qed.

(** X13. Stopping a listening instance that tracks no connection: [stop]
    only asks the listener to close; when the listener reports closed the
    instance drops the listener and every registered handler and calls
    the callback. From then on a further [stop] completes at once, and
    after a new [start] every request gets the default response until
    handlers are registered again. *)
Theorem stop_closes_and_resets (callback : nat) (s : server) (l : listener) :
  srv_server s = Some l →
  lst_on_close l = [] →
  srv_connections s = [] →
  let s1 := (stop callback s).1 in
  let s2 := (react Closed s1).1 in
  (stop callback s).2 = [CloseListener]
  ∧ srv_handlers s1 = srv_handlers s
  ∧ (react Closed s1).2 = [Callback callback]
  ∧ srv_server s2 = None
  ∧ srv_handlers s2 = []
  ∧ (∀ cb, stop cb s2 = (s2, [Callback cb]))
  ∧ (∀ cb url_parse form_parse req,
       written (connectApp url_parse form_parse (start cb s2).1 req).2
       = [ WriteHead (VNum 404)
             {[ "content-type" := VStr "plain/text"; "content-length" := VNum 9 ]};
           End (Some (VStr "Not Found")) ]).
Proof.
  intros Hl Hhooks Hcs s1 s2. subst s2 s1. unfold stop. rewrite Hl. cbn.
  rewrite Hhooks. cbn. unfold on_closed. cbn. rewrite Hcs. cbn.
  split_and!; try reflexivity.
  intros cb url_parse form_parse req. apply connectApp_no_handlers. reflexivity.
Qed.

(** *** Draining the connections on shutdown *)

Lemma filter_drain_others (c cb : nat) (rem : list nat) :
  List.filter (λ p : nat * nat, negb (Nat.eqb p.1 c)) (map (λ x, (x, cb)) rem)
  = map (λ x, (x, cb)) (without c rem).
Proof.
  unfold without. induction rem as [|x rem IH]; [reflexivity|]. cbn.
  destruct (negb (Nat.eqb x c)); cbn; rewrite IH; reflexivity.
Qed.

Lemma filter_drain_absent (c cb : nat) (rem : list nat) :
  c ∉ rem →
  List.filter (λ p : nat * nat, Nat.eqb p.1 c) (map (λ x, (x, cb)) rem) = [].
Proof.
  induction rem as [|x rem IH]; intros Hc; [reflexivity|].
  apply not_elem_of_cons in Hc as [Hne Hc]. cbn.
  destruct (Nat.eqb_spec x c) as [->|_]; [congruence|]. apply IH, Hc.
Qed.

Lemma filter_drain_mine (c cb : nat) (rem : list nat) :
  NoDup rem → c ∈ rem →
  List.filter (λ p : nat * nat, Nat.eqb p.1 c) (map (λ x, (x, cb)) rem) = [(c, cb)].
Proof.
  induction 1 as [|x rem Hx Hnd IH]; intros Hc; [by apply elem_of_nil in Hc|].
  cbn. destruct (Nat.eqb_spec x c) as [->|Hne].
  - rewrite filter_drain_absent by exact Hx. reflexivity.
  - apply elem_of_cons in Hc as [->|Hc]; [congruence|]. apply IH, Hc.
Qed.

Lemma drain_step (cb c : nat) (s : server) :
  draining_for cb s →
  c ∈ srv_connections s →
  let s' := (react (ConnectionClosed c) s).1 in
  draining_for cb s'
  ∧ srv_connections s' = without c (srv_connections s)
  ∧ srv_server s' = srv_server s
  ∧ srv_handlers s' = srv_handlers s
  ∧ (react (ConnectionClosed c) s).2
    = match without c (srv_connections s) with
      | [] => [Callback cb]
      | _ => []
      end.
Proof.
  intros [Hd Hnd] Hc s'. subst s'. unfold react. cbn [srv_draining set_connections].
  rewrite Hd, filter_drain_others, (filter_drain_mine c cb _ Hnd Hc).
  cbn [run_hooks]. unfold on_drained.
  cbn [fst snd srv_connections srv_draining srv_server srv_handlers
       set_connections set_draining].
  rewrite without_twice, (right_id_L [] (++)).
  split_and!; try reflexivity.
  - split; [reflexivity|]. apply without_NoDup, Hnd.
  - destruct (without c (srv_connections s)); reflexivity.
Qed.

Lemma reacts_cons (sg : signal) (rest : list signal) (s : server) :
  reacts (sg :: rest) s
  = ((reacts rest (react sg s).1).1, (react sg s).2 ++ (reacts rest (react sg s).1).2).
Proof.
  cbn [reacts]. destruct (react sg s) as [s1 e1]. cbn [fst snd].
  destruct (reacts rest s1) as [s2 e2]. reflexivity.
Qed.

Lemma drain_many (cb : nat) (closed : list nat) :
  ∀ s, draining_for cb s →
       NoDup closed →
       (∀ x, x ∈ closed → x ∈ srv_connections s) →
       let r := reacts (ConnectionClosed <$> closed) s in
       draining_for cb r.1
       ∧ srv_connections r.1 = remaining (srv_connections s) closed
       ∧ srv_server r.1 = srv_server s
       ∧ srv_handlers r.1 = srv_handlers s
       ∧ r.2 = match closed, remaining (srv_connections s) closed with
               | _ :: _, [] => [Callback cb]
               | _, _ => []
               end.
Proof.
  induction closed as [|c closed IH]; intros s Hinv Hnd Hsub r; subst r.
  - cbn. split_and!; try reflexivity. exact Hinv.
  - apply NoDup_cons in Hnd as [Hc Hnd].
    destruct (drain_step cb c s Hinv (Hsub c ltac:(left))) as (Hinv1 & Hcs1 & Hsv1 & Hh1 & He1).
    rewrite fmap_cons, reacts_cons. cbn [fst snd].
    set (s1 := (react (ConnectionClosed c) s).1) in *.
    assert (Hsub1 : ∀ x, x ∈ closed → x ∈ srv_connections s1).
    { intros x Hx. rewrite Hcs1, without_elem. split; [apply Hsub; by right|].
      intros ->. exact (Hc Hx). }
    destruct (IH s1 Hinv1 Hnd Hsub1) as (Hinv2 & Hcs2 & Hsv2 & Hh2 & He2).
    assert (Hrem : remaining (srv_connections s) (c :: closed)
                   = remaining (srv_connections s1) closed)
      by (rewrite Hcs1; reflexivity).
    rewrite Hrem. split_and!; [exact Hinv2|exact Hcs2|congruence|congruence|].
    rewrite He1, He2. rewrite <- Hcs1.
    destruct (srv_connections s1) as [|y ys] eqn:Hs1.
    + destruct closed as [|x closed]; [reflexivity|].
      exfalso. specialize (Hsub1 x ltac:(left)). by apply elem_of_nil in Hsub1.
    + destruct closed as [|x closed]; [reflexivity|]. cbn [app]. reflexivity.
Qed.

(** X14. Stopping a listening instance that tracks connections: once the
    listener reports closed, listener and handlers are dropped and every
    tracked connection is asked to end, but nothing is called back yet;
    the callback is called exactly once, when the last of those
    connections has reported closed, in whatever order they do, and no
    connection is tracked any more by then. *)
Theorem stop_waits_for_connections (callback : nat) (s : server) (l : listener)
    (order : list nat) :
  srv_server s = Some l →
  lst_on_close l = [] →
  srv_draining s = [] →
  srv_connections s ≠ [] →
  NoDup (srv_connections s) →
  order ≡ₚ srv_connections s →
  let s2 := (react Closed (stop callback s).1).1 in
  (stop callback s).2 = [CloseListener]
  ∧ (react Closed (stop callback s).1).2 = EndConnection <$> srv_connections s
  ∧ srv_server s2 = None
  ∧ srv_handlers s2 = []
  ∧ (∀ closed c rest, order = closed ++ c :: rest →
       (reacts (ConnectionClosed <$> closed) s2).2 = [])
  ∧ (reacts (ConnectionClosed <$> order) s2).2 = [Callback callback]
  ∧ srv_connections (reacts (ConnectionClosed <$> order) s2).1 = [].
Proof.
  intros Hl Hhooks Hd Hne Hnd Hperm s2.
  assert (Hclosed : react Closed (stop callback s).1
                    = (set_draining (map (λ c, (c, callback)) (srv_connections s))
                         (set_handlers [] (set_server None s)),
                       EndConnection <$> srv_connections s)).
  { unfold stop. rewrite Hl. cbn. rewrite Hhooks. cbn. unfold on_closed. cbn.
    destruct (srv_connections s) as [|c cs] eqn:Hcs; [congruence|]. cbn.
    rewrite Hd, (right_id_L [] (++)). reflexivity. }
  assert (Hs2 : s2 = set_draining (map (λ c, (c, callback)) (srv_connections s))
                       (set_handlers [] (set_server None s)))
    by (subst s2; rewrite Hclosed; reflexivity).
  assert (Hinv : draining_for callback s2).
  { rewrite Hs2. split; [reflexivity|exact Hnd]. }
  assert (Hcs2 : srv_connections s2 = srv_connections s) by (rewrite Hs2; reflexivity).
  assert (Hnd' : NoDup order) by (rewrite Hperm; exact Hnd).
  split_and!.
  - unfold stop. rewrite Hl. reflexivity.
  - rewrite Hclosed. reflexivity.
  - rewrite Hs2. reflexivity.
  - rewrite Hs2. reflexivity.
  - intros closed c rest Horder. subst order.
    apply NoDup_app in Hnd' as (Hndc & Hdisj & _).
    destruct (drain_many callback closed s2 Hinv Hndc) as (_ & _ & _ & _ & ->).
    { intros x Hx. rewrite Hcs2, <- Hperm. apply elem_of_app. by left. }
    assert (Hc : c ∈ remaining (srv_connections s2) closed).
    { apply remaining_elem. split.
      - rewrite Hcs2, <- Hperm. apply elem_of_app. right. by left.
      - intros Hin. apply (Hdisj c Hin). by left. }
    destruct closed; [reflexivity|].
    destruct (remaining _ _); [by apply elem_of_nil in Hc|reflexivity].
  - destruct (drain_many callback order s2 Hinv Hnd') as (_ & _ & _ & _ & ->).
    { intros x Hx. rewrite Hcs2, <- Hperm. exact Hx. }
    assert (Hrem : remaining (srv_connections s2) order = []).
    { apply elem_of_nil_inv. intros x [Hx Hnx]%remaining_elem.
      apply Hnx. rewrite Hperm, <- Hcs2. exact Hx. }
    destruct order as [|o order].
    + exfalso. apply Hne. apply Permutation_nil_l in Hperm. congruence.
    + rewrite Hrem. reflexivity.
  - destruct (drain_many callback order s2 Hinv Hnd') as (_ & -> & _).
    { intros x Hx. rewrite Hcs2, <- Hperm. exact Hx. }
    apply elem_of_nil_inv. intros x [Hx Hnx]%remaining_elem.
    apply Hnx. rewrite Hperm, <- Hcs2. exact Hx.
Qed.

(** ** The two-protocol facade *)

Lemma decode_code (k : ServerMock.continuation) : ServerMock.decode (ServerMock.code k) = k.
Proof.
  unfold ServerMock.decode. destruct k as [n|n]; cbn [ServerMock.code].
  - rewrite Nat.even_even, Nat.div2_double. reflexivity.
  - rewrite Nat.even_succ, Nat.odd_even, Nat.div2_succ_double. reflexivity.
Qed.

Lemma from_http_callback (k : ServerMock.continuation) (m : ServerMock.mock) :
  ServerMock.from_http [Callback (ServerMock.code k)] m = ServerMock.run k m.
Proof.
  cbn [ServerMock.from_http]. rewrite decode_code.
  destruct (ServerMock.run k m) as [m1 o1]. rewrite (right_id_L [] (++)). reflexivity.
Qed.

(** Registering what an earlier registration left of a descriptor stores
    the same handler again. *)
Lemma extend_absorb {A} (dflt obj : gmap string A) :
  extend dflt (extend dflt obj) = extend dflt obj.
Proof.
  apply map_eq. intros k. rewrite !extend_lookup.
  destruct (obj !! k); [reflexivity|]. destruct (dflt !! k); reflexivity.
Qed.

Lemma registered_rewritten (d : descriptor) : registered (rewritten d) = registered d.
Proof.
  unfold registered, rewritten, extend_reply.
  destruct d as [w o f [[[st|] [bd|] [hd|] [ov|]]|] dl];
    cbn [d_when d_on d_filter d_reply d_delay d_status d_body d_headers
         d_headersOverrides default_reply_descriptor default from_option union
         option_union union_with option_union_with id];
    rewrite extend_absorb; reflexivity.
Qed.

(** X15. [will] on the facade registers the descriptor with each
    configured instance exactly as a registration with that instance alone
    would, although the first instance rewrites the [reply] of the
    descriptor object before the second one reads it; a protocol that was
    not configured records nothing, and the facade itself is returned. *)
Theorem mock_will_reaches_both (d : descriptor) (m : ServerMock.mock) :
  ServerMock.will d m
  = ({| ServerMock.httpServerMock :=
          (λ s, (will d s).1) <$> ServerMock.httpServerMock m;
        ServerMock.httpsServerMock :=
          (λ s, (will d s).1) <$> ServerMock.httpsServerMock m |}, This)
  ∧ registered (rewritten d) = registered d.
Proof.
  split; [|apply registered_rewritten].
  unfold ServerMock.will, will.
  destruct (ServerMock.httpServerMock m) as [hs|]; [|reflexivity].
  rewrite registered_rewritten. reflexivity.
Qed.

Lemma react_http_calls (sg : signal) (m : ServerMock.mock) (s s' : server)
    (k : ServerMock.continuation) :
  ServerMock.httpServerMock m = Some s →
  react sg s = (s', [Callback (ServerMock.code k)]) →
  ServerMock.react_http sg m = ServerMock.run k (ServerMock.set_http (Some s') m).
Proof.
  intros Hm Hr. unfold ServerMock.react_http. rewrite Hm, Hr.
  apply from_http_callback.
Qed.

Lemma stop_then_closed (callback : nat) (s : server) (l : listener) :
  srv_server s = Some l →
  lst_on_close l = [] →
  srv_connections s = [] →
  (stop callback s).2 = [CloseListener]
  ∧ react Closed (stop callback s).1
    = (set_handlers [] (set_server None s), [Callback callback]).
Proof.
  intros Hl Hhooks Hcs. unfold stop. rewrite Hl. cbn. rewrite Hhooks. cbn.
  unfold on_closed. cbn. rewrite Hcs. cbn. split; reflexivity.
Qed.

(** X16. [start] on a facade with both protocols: the HTTP listener is
    bound first and nothing else happens; the HTTPS listener is bound
    only when the HTTP one reports listening; the callback is called only
    when the HTTPS one reports listening too. No handler is lost on the
    way. *)
Theorem mock_start_in_sequence (callback : nat) (m : ServerMock.mock)
    (hs ss : server) :
  ServerMock.httpServerMock m = Some hs →
  ServerMock.httpsServerMock m = Some ss →
  let r1 := ServerMock.start callback m in
  let r2 := ServerMock.react_http Listening r1.1 in
  let r3 := ServerMock.react_https Listening r2.1 in
  r1.2 = [ServerMock.Http (Listen (given (srv_key hs) && given (srv_cert hs))
                                  (srv_port hs) (srv_host hs))]
  ∧ r2.2 = [ServerMock.Https (Listen (given (srv_key ss) && given (srv_cert ss))
                                     (srv_port ss) (srv_host ss))]
  ∧ r3.2 = [ServerMock.Done callback]
  ∧ srv_handlers <$> ServerMock.httpServerMock r3.1 = Some (srv_handlers hs)
  ∧ srv_handlers <$> ServerMock.httpsServerMock r3.1 = Some (srv_handlers ss).
Proof.
  intros Hh Hs r1 r2 r3.
  set (k := ServerMock.StartHttps callback).
  set (hs1 := (start (ServerMock.code k) hs).1).
  assert (E1 : r1 = (ServerMock.set_http (Some hs1) m,
                     [ServerMock.Http (Listen (given (srv_key hs) && given (srv_cert hs))
                                              (srv_port hs) (srv_host hs))])).
  { subst r1. unfold ServerMock.start. rewrite Hh. reflexivity. }
  assert (E2 : r2 = (ServerMock.set_https (Some (start callback ss).1)
                       (ServerMock.set_http (Some hs1) m),
                     [ServerMock.Https (Listen (given (srv_key ss) && given (srv_cert ss))
                                               (srv_port ss) (srv_host ss))])).
  { subst r2. rewrite E1. cbn [fst].
    rewrite (react_http_calls Listening _ hs1 hs1 k); [|reflexivity|reflexivity].
    unfold ServerMock.run, k. cbn [ServerMock.httpsServerMock ServerMock.set_http].
    rewrite Hs. destruct m; reflexivity. }
  subst r3. rewrite E1, E2. cbn [fst snd]. split_and!; reflexivity.
Qed.

(** X17. A protocol that was not configured is skipped by [start]: with
    no instance at all the callback is called at once; with HTTPS only
    its listener is bound at once; with HTTP only the callback is called
    as soon as the HTTP listener reports listening. *)
Theorem mock_start_skips_absent (callback : nat) (m : ServerMock.mock) :
  (ServerMock.httpServerMock m = None → ServerMock.httpsServerMock m = None →
   ServerMock.start callback m = (m, [ServerMock.Done callback]))
  ∧ (∀ ss, ServerMock.httpServerMock m = None → ServerMock.httpsServerMock m = Some ss →
       (ServerMock.start callback m).2
       = [ServerMock.Https (Listen (given (srv_key ss) && given (srv_cert ss))
                                   (srv_port ss) (srv_host ss))]
       ∧ (ServerMock.react_https Listening (ServerMock.start callback m).1).2
         = [ServerMock.Done callback])
  ∧ (∀ hs, ServerMock.httpServerMock m = Some hs → ServerMock.httpsServerMock m = None →
       (ServerMock.start callback m).2
       = [ServerMock.Http (Listen (given (srv_key hs) && given (srv_cert hs))
                                  (srv_port hs) (srv_host hs))]
       ∧ (ServerMock.react_http Listening (ServerMock.start callback m).1).2
         = [ServerMock.Done callback]).
Proof.
  split_and!.
  - intros Hh Hs. unfold ServerMock.start, ServerMock.run. rewrite Hh, Hs. reflexivity.
  - intros ss Hh Hs. unfold ServerMock.start, ServerMock.run. rewrite Hh, Hs.
    split; reflexivity.
  - intros hs Hh Hs. set (k := ServerMock.StartHttps callback).
    set (hs1 := (start (ServerMock.code k) hs).1).
    assert (E1 : ServerMock.start callback m
                 = (ServerMock.set_http (Some hs1) m,
                    [ServerMock.Http (Listen (given (srv_key hs) && given (srv_cert hs))
                                             (srv_port hs) (srv_host hs))])).
    { unfold ServerMock.start. rewrite Hh. reflexivity. }
    rewrite E1. cbn [fst snd]. split; [reflexivity|].
    rewrite (react_http_calls Listening _ hs1 hs1 k); [|reflexivity|reflexivity].
    unfold ServerMock.run, k. cbn [ServerMock.httpsServerMock ServerMock.set_http].
    rewrite Hs. reflexivity.
Qed.

(** X18. [stop] on a facade whose two instances listen and track no
    connection: the HTTP listener is asked to close first; the HTTPS one
    only when the HTTP one reports closed; the callback is called only
    when the HTTPS one reports closed too, and by then both instances have
    dropped their listener and their handlers. *)
Theorem mock_stop_in_sequence (callback : nat) (m : ServerMock.mock)
    (hs ss : server) (lh ls : listener) :
  ServerMock.httpServerMock m = Some hs →
  ServerMock.httpsServerMock m = Some ss →
  srv_server hs = Some lh → lst_on_close lh = [] → srv_connections hs = [] →
  srv_server ss = Some ls → lst_on_close ls = [] → srv_connections ss = [] →
  let r1 := ServerMock.stop callback m in
  let r2 := ServerMock.react_http Closed r1.1 in
  let r3 := ServerMock.react_https Closed r2.1 in
  r1.2 = [ServerMock.Http CloseListener]
  ∧ r2.2 = [ServerMock.Https CloseListener]
  ∧ r3.2 = [ServerMock.Done callback]
  ∧ ServerMock.httpServerMock r3.1 = Some (set_handlers [] (set_server None hs))
  ∧ ServerMock.httpsServerMock r3.1 = Some (set_handlers [] (set_server None ss)).
Proof.
  intros Hh Hs Hlh Hch Hnh Hls Hcs Hns r1 r2 r3.
  destruct (stop_then_closed (ServerMock.code (ServerMock.StopHttps callback)) hs lh Hlh Hch Hnh) as [Hh1 Hh2].
  destruct (stop_then_closed callback ss ls Hls Hcs Hns) as [Hs1 Hs2].
  set (hs1 := (stop (ServerMock.code (ServerMock.StopHttps callback)) hs).1) in *.
  set (ss1 := (stop callback ss).1) in *.
  assert (E1 : r1 = (ServerMock.set_http (Some hs1) m, [ServerMock.Http CloseListener])).
  { subst r1. unfold ServerMock.stop. rewrite Hh.
    rewrite (surjective_pairing (stop (ServerMock.code (ServerMock.StopHttps callback)) hs)), Hh1. reflexivity. }
  assert (E2 : r2 = (ServerMock.set_https (Some ss1)
                       (ServerMock.set_http (Some (set_handlers [] (set_server None hs))) m),
                     [ServerMock.Https CloseListener])).
  { subst r2. rewrite E1. cbn [fst].
    rewrite (react_http_calls Closed (ServerMock.set_http (Some hs1) m) hs1 _
               (ServerMock.StopHttps callback) eq_refl Hh2).
    unfold ServerMock.run. cbn [ServerMock.httpsServerMock ServerMock.set_http].
    rewrite Hs. rewrite (surjective_pairing (stop callback ss)), Hs1.
    destruct m; reflexivity. }
  subst r3. rewrite E1, E2. cbn [fst snd]. unfold ServerMock.react_https.
  cbn [ServerMock.httpsServerMock ServerMock.set_https]. rewrite Hs2.
  split_and!; reflexivity.
Qed.

(** X19. [stop] on a facade none of whose instances listens (never
    started, stopped before, or not configured) calls the callback at
    once, asks nothing of any transport and leaves both instances as they
    are. *)
Theorem mock_stop_when_idle (callback : nat) (m : ServerMock.mock) :
  ServerMock.httpServerMock m ≫= srv_server = None →
  ServerMock.httpsServerMock m ≫= srv_server = None →
  ServerMock.stop callback m = (m, [ServerMock.Done callback]).
Proof.
  intros Hh Hs. unfold ServerMock.stop.
  assert (Hrun : ServerMock.run (ServerMock.StopHttps callback) m
                 = (m, [ServerMock.Done callback])).
  { unfold ServerMock.run. destruct (ServerMock.httpsServerMock m) as [ss|] eqn:E;
      [|reflexivity].
    cbn in Hs. unfold stop. rewrite Hs. destruct m; cbn in *. subst. reflexivity. }
  destruct (ServerMock.httpServerMock m) as [hs|] eqn:E; [|exact Hrun].
  cbn in Hh. unfold stop. rewrite Hh.
  replace (ServerMock.set_http (Some hs) m) with m
    by (destruct m; cbn in *; subst; reflexivity).
  rewrite from_http_callback. exact Hrun.
Qed.

(** ** The further properties at work on the sample data *)

Lemma _multipart_keeps_routing_witness :
  h_filter (registered Sample.ping) = None
  ∧ matches Sample.url_parse (registered Sample.ping)
      (_multipart Sample.form_parse (Sample.post_form "/ping") (λ r, r))
    = matches Sample.url_parse (registered Sample.ping) (Sample.post_form "/ping").
Proof.
  split; [reflexivity|].
  exact (proj2 (proj2 (proj2 (_multipart_keeps_routing Sample.url_parse Sample.form_parse
                                (Sample.post_form "/ping") (registered Sample.ping))))
           eq_refl).
Defined.

Lemma matched_request_gets_one_response_witness :
  let s := Sample.with_handlers [Sample.ping_filtered; Sample.ping] in
  let req := Sample.get "/ping" in
  Exists (λ h, matches Sample.url_parse h
                 (_multipart Sample.form_parse req (λ r, r)) = true) (srv_handlers s)
  ∧ Forall (λ e, ∀ op, e ≠ EvRes op)
           (connectApp Sample.url_parse Sample.form_parse s req).2.
Proof.
  intros s req.
  assert (H : Exists (λ h, matches Sample.url_parse h
                             (_multipart Sample.form_parse req (λ r, r)) = true)
                     (srv_handlers s)).
  { right. left. reflexivity. }
  split; [exact H|].
  exact (proj1 (matched_request_gets_one_response Sample.url_parse Sample.form_parse
                  s req H)).
Defined.

Lemma unresolved_body_leaves_request_unanswered_witness :
  let s := Sample.with_handlers [Sample.ping; Sample.hang] in
  let req := Sample.get "/hang" in
  srv_handlers s !! 1%nat = Some (registered Sample.hang)
  ∧ matches Sample.url_parse (registered Sample.hang) req = true
  ∧ written (connectApp Sample.url_parse Sample.form_parse s req).2 = []
  ∧ (connectApp Sample.url_parse Sample.form_parse s req).1 = s.
Proof.
  intros s req.
  assert (H1 : srv_handlers s !! 1%nat = Some (registered Sample.hang)) by reflexivity.
  assert (H2 : matches Sample.url_parse (registered Sample.hang)
                 (_multipart Sample.form_parse req (λ r, r)) = true) by reflexivity.
  assert (H3 : ∀ k hk, (k < 1)%nat → srv_handlers s !! k = Some hk →
                       matches Sample.url_parse hk
                         (_multipart Sample.form_parse req (λ r, r)) = false).
  { intros k hk Hk. destruct k as [|k]; [|lia]. intros [= <-]. reflexivity. }
  split; [exact H1|]. split; [exact H2|].
  destruct (unresolved_body_leaves_request_unanswered Sample.url_parse Sample.form_parse
              s req 1 (registered Sample.hang) _ H1 H2 H3 eq_refl (le_n 2) eq_refl)
    as (W & _ & S).
  split; [exact W|exact S].
Defined.

Lemma when_is_case_insensitive_witness :
  toUpperCase (h_when (registered Sample.ping_lower))
  = toUpperCase (h_when (registered Sample.ping))
  ∧ matches Sample.url_parse (registered Sample.ping_lower) (Sample.get "/ping") = true.
Proof.
  assert (H : toUpperCase (h_when (registered Sample.ping_lower))
              = toUpperCase (h_when (registered Sample.ping))) by reflexivity.
  split; [exact H|].
  rewrite (when_is_case_insensitive Sample.url_parse (registered Sample.ping_lower)
             (registered Sample.ping) (Sample.get "/ping") H eq_refl eq_refl).
  reflexivity.
Defined.

Lemma literal_reply_end_to_end_witness :
  let s := Sample.with_handlers [Sample.gone] in
  let req := Sample.get "/ping?x=1" in
  (req_method req = "GET"
   ∧ up_pathname (Sample.url_parse (req_url req)) = Some "/ping"
   ∧ Forall (λ h, matches Sample.url_parse h req = false) (srv_handlers s))
  ∧ response_of (written (connectApp Sample.url_parse Sample.form_parse
                            (will Sample.ping s).1 req).2)
    = Some {| status := VNum 200;
              headers := {[ "content-type" := VStr "application/json";
                            "content-length" := VNum 4 ]};
              body := [VStr "pong"] |}.
Proof.
  intros s req.
  assert (H1 : req_method req = "GET") by reflexivity.
  assert (H2 : up_pathname (Sample.url_parse (req_url req)) = Some "/ping") by reflexivity.
  assert (H3 : Forall (λ h, matches Sample.url_parse h req = false) (srv_handlers s))
    by (repeat constructor).
  split; [auto|].
  exact (literal_reply_end_to_end Sample.url_parse Sample.form_parse s req "/ping" "pong"
           H1 H2 H3).
Defined.

Lemma response_waits_for_delay_witness :
  let h := registered Sample.slow in
  let req := Sample.get "/slow" in
  ∃ ops, EvTimeout 50 ops ∈ (respond 0 h req).2
         ∧ 50 = default 0 (h_delay h)
         ∧ written (respond 0 h req).2 = ops.
Proof.
  intros h req. eexists.
  assert (Hin : EvTimeout 50 _ ∈ (respond 0 h req).2) by (right; right; left).
  split; [exact Hin|].
  destruct (response_waits_for_delay 0 h req 50 _ Hin) as (Hms & Hw & _).
  split; [exact Hms|exact Hw].
Defined.

Lemma closed_connection_is_forgotten_witness :
  srv_draining (Sample.listening [5; 6]%nat) = []
  ∧ srv_connections (react (ConnectionClosed 5) (Sample.listening [5; 6]%nat)).1 = [6%nat]
  ∧ (react (ConnectionClosed 5) (Sample.listening [5; 6]%nat)).2 = [].
Proof.
  split; [reflexivity|].
  destruct (closed_connection_is_forgotten 5 (Sample.listening [5; 6]%nat))
    as (Hcs & _ & _ & _ & _ & He).
  split; [rewrite Hcs; reflexivity|]. apply He. reflexivity.
Defined.

Lemma start_calls_back_when_listening_witness :
  (start 3 Sample.fresh).2 = [Listen false 8080 "localhost"]
  ∧ react Listening (start 3 Sample.fresh).1 = ((start 3 Sample.fresh).1, [Callback 3%nat]).
Proof.
  destruct (start_calls_back_when_listening 3 Sample.fresh) as (H1 & _ & _ & _ & H2).
  split; [exact H1|exact H2].
Defined.

Lemma stop_closes_and_resets_witness :
  let s := Sample.listening [] in
  (∃ l, srv_server s = Some l ∧ lst_on_close l = [])
  ∧ srv_connections s = []
  ∧ (react Closed (stop 2 s).1).2 = [Callback 2%nat]
  ∧ srv_handlers (react Closed (stop 2 s).1).1 = [].
Proof.
  intros s.
  assert (H1 : srv_server s
               = Some {| lst_secure := false; lst_on_listening := [1%nat];
                         lst_on_close := [] |}) by reflexivity.
  assert (H2 : srv_connections s = []) by reflexivity.
  split; [eexists; split; [exact H1|reflexivity]|]. split; [exact H2|].
  destruct (stop_closes_and_resets 2 s _ H1 eq_refl H2) as (_ & _ & E & _ & Hh & _).
  split; [exact E|exact Hh].
Defined.

Lemma stop_waits_for_connections_witness :
  let s := Sample.listening [5; 6]%nat in
  let s2 := (react Closed (stop 2 s).1).1 in
  (srv_connections s = [5; 6]%nat ∧ [6; 5]%nat ≡ₚ srv_connections s)
  ∧ (react Closed (stop 2 s).1).2 = [EndConnection 5; EndConnection 6]
  ∧ (reacts [ConnectionClosed 6] s2).2 = []
  ∧ (reacts [ConnectionClosed 6; ConnectionClosed 5] s2).2 = [Callback 2%nat].
Proof.
  intros s s2.
  assert (H1 : srv_server s
               = Some {| lst_secure := false; lst_on_listening := [1%nat];
                         lst_on_close := [] |}) by reflexivity.
  assert (H3 : srv_draining s = []) by reflexivity.
  assert (H4 : srv_connections s ≠ []) by discriminate.
  assert (H5 : NoDup (srv_connections s)).
  { apply NoDup_cons_2; [|apply NoDup_singleton].
    intros Hin%list_elem_of_singleton. discriminate Hin. }
  assert (H6 : [6; 5]%nat ≡ₚ srv_connections s) by apply perm_swap.
  split; [split; [reflexivity|exact H6]|].
  destruct (stop_waits_for_connections 2 s _ [6; 5]%nat H1 eq_refl H3 H4 H5 H6)
    as (_ & E & _ & _ & Hpre & Hall & _).
  split; [exact E|]. split; [|exact Hall].
  exact (Hpre [6%nat] 5%nat [] eq_refl).
Defined.

Lemma mock_start_in_sequence_witness :
  (∃ hs ss, ServerMock.httpServerMock MockSample.both = Some hs
            ∧ ServerMock.httpsServerMock MockSample.both = Some ss)
  ∧ (ServerMock.start 1 MockSample.both).2
    = [ServerMock.Http (Listen false 8080 "localhost")]
  ∧ (ServerMock.react_http Listening (ServerMock.start 1 MockSample.both).1).2
    = [ServerMock.Https (Listen true 8443 "localhost")]
  ∧ (ServerMock.react_https Listening
       (ServerMock.react_http Listening (ServerMock.start 1 MockSample.both).1).1).2
    = [ServerMock.Done 1].
Proof.
  split; [eexists _, _; split; reflexivity|].
  destruct (mock_start_in_sequence 1 MockSample.both _ _ eq_refl eq_refl)
    as (E1 & E2 & E3 & _).
  split; [exact E1|]. split; [exact E2|exact E3].
Defined.

Lemma mock_start_skips_absent_witness :
  (ServerMock.httpServerMock MockSample.neither = None
   ∧ ServerMock.httpsServerMock MockSample.neither = None)
  ∧ ServerMock.start 1 MockSample.neither = (MockSample.neither, [ServerMock.Done 1])
  ∧ (ServerMock.react_http Listening (ServerMock.start 1 MockSample.http_only).1).2
    = [ServerMock.Done 1].
Proof.
  split; [split; reflexivity|]. split.
  - exact (proj1 (mock_start_skips_absent 1 MockSample.neither) eq_refl eq_refl).
  - exact (proj2 (proj2 (proj2 (mock_start_skips_absent 1 MockSample.http_only))
                   _ eq_refl eq_refl)).
Defined.

Lemma mock_stop_in_sequence_witness :
  let m := MockSample.both_listening in
  (∃ hs ss lh ls,
     ServerMock.httpServerMock m = Some hs ∧ ServerMock.httpsServerMock m = Some ss
     ∧ srv_server hs = Some lh ∧ srv_server ss = Some ls)
  ∧ (ServerMock.stop 2 m).2 = [ServerMock.Http CloseListener]
  ∧ (ServerMock.react_http Closed (ServerMock.stop 2 m).1).2
    = [ServerMock.Https CloseListener]
  ∧ (ServerMock.react_https Closed
       (ServerMock.react_http Closed (ServerMock.stop 2 m).1).1).2
    = [ServerMock.Done 2].
Proof.
  intros m.
  split; [eexists _, _, _, _; split_and!; reflexivity|].
  destruct (mock_stop_in_sequence 2 m _ _ _ _ eq_refl eq_refl eq_refl eq_refl eq_refl
              eq_refl eq_refl eq_refl) as (E1 & E2 & E3 & _).
  split; [exact E1|]. split; [exact E2|exact E3].
Defined.

Lemma mock_stop_when_idle_witness :
  (ServerMock.httpServerMock MockSample.both ≫= srv_server = None
   ∧ ServerMock.httpsServerMock MockSample.both ≫= srv_server = None)
  ∧ ServerMock.stop 2 MockSample.both = (MockSample.both, [ServerMock.Done 2]).
Proof.
  split; [split; reflexivity|].
  exact (mock_stop_when_idle 2 MockSample.both eq_refl eq_refl).
Defined.
